(** * nexusUI manager (lib/core/manager.js): registry, identifiers, broadcasts

    A shallow embedding of the central manager object [nx] of nexusUI and
    the properties of its methods [transform], [colorize],
    [setThrottlePeriod], [setLabels], [setProp], [pulse] and [removeAni].

    Conventions of the embedding.
    - JavaScript values that the manager only stores, compares for
      truthiness or passes on are given by [Value].
    - A JavaScript object used as a dictionary is a [gmap string Value]
      holding its own properties.
    - The widgets registry [nx.widgets] is a [gmap string Widget]; no
      property below depends on the enumeration order of [for .. in].
    - Widgets come from [require('../widgets')], which is not part of
      manager.js: the catalog is a parameter of the development.  A
      constructor of the catalog throws or gives an object with the members
      of a widget.  The methods [init] and [draw] of a widget are opaque to
      the manager; the embedding takes them to return and counts their calls
      in the widget.
    - The manager is the page-wide singleton, so the global [nx] and
      [this] denote the same object inside every method.
    - Identifiers of widgets are ordinary property names: not ["__proto__"],
      which is never stored as an own property, and not the name of a page
      global that the manager itself reads ([nx], [console]). *)

From stdpp Require Import gmap strings list fin_maps pretty.

(** ** JavaScript values *)

(** Numbers are the integer-valued ones and NaN, which is all the manager
    needs: it tests numbers for truthiness only.  [VRef r] is a reference to
    an object or a function. *)
Inductive Value : Type :=
  | VUndefined
  | VNull
  | VBool (b : bool)
  | VNum (z : Z)
  | VNaN
  | VStr (s : string)
  | VRef (r : nat).

#[global] Instance Value_eq_dec : EqDecision Value.
Proof. solve_decision. Defined.

(** ToBoolean. *)
Definition truthy (v : Value) : bool :=
  match v with
  | VUndefined | VNull | VNaN => false
  | VBool b => b
  | VNum z => negb (z =? 0)%Z
  | VStr s => negb (String.eqb s "")
  | VRef _ => true
  end.

(** ToBoolean of a string. *)
Definition truthy_str (s : string) : bool := negb (String.eqb s "").

(** [o[k] = v] on the own properties of a plain object.  Assigning to
    ["__proto__"] goes to the accessor of Object.prototype and never creates
    an own property. *)
Definition set_own (k : string) (v : Value) (o : gmap string Value)
  : gmap string Value :=
  if String.eqb k "__proto__" then o else <[k := v]> o.

(** ** Widgets *)

(** A widget as the manager sees it: its identifier [canvasID], its own
    colour mapping ([colors] in the source), its remaining own data
    properties (among them [throttlePeriod]), and the number of calls of its
    methods [init] and [draw] so far. *)
Record Widget : Type := mkWidget {
  canvasID : string;
  wcolors : gmap string Value;
  wprops : gmap string Value;
  inits : nat;
  draws : nat
}.

#[global] Instance Widget_eq_dec : EqDecision Widget.
Proof. solve_decision. Defined.

Definition set_wcolors (f : gmap string Value → gmap string Value) (w : Widget) : Widget :=
  mkWidget (canvasID w) (f (wcolors w)) (wprops w) (inits w) (draws w).

Definition set_wprops (f : gmap string Value → gmap string Value) (w : Widget) : Widget :=
  mkWidget (canvasID w) (wcolors w) (f (wprops w)) (inits w) (draws w).

(** [w.init()] *)
Definition init (w : Widget) : Widget :=
  mkWidget (canvasID w) (wcolors w) (wprops w) (S (inits w)) (draws w).

(** [w.draw()] *)
Definition draw (w : Widget) : Widget :=
  mkWidget (canvasID w) (wcolors w) (wprops w) (inits w) (S (draws w)).

(** ** The manager *)

(** [widgets], [elemTypeArr], [aniItems] and [colors] are the members of the
    source; [props] holds the remaining own data properties ([throttlePeriod],
    [showLabels], [globalWidgets], [font], ...).  The entries of [aniItems]
    are function references. *)
Record manager : Type := mkManager {
  widgets : gmap string Widget;
  elemTypeArr : list string;
  aniItems : list nat;
  colors : gmap string Value;
  props : gmap string Value
}.

Definition set_widgets (f : gmap string Widget → gmap string Widget) (m : manager) : manager :=
  mkManager (f (widgets m)) (elemTypeArr m) (aniItems m) (colors m) (props m).

Definition set_elemTypeArr (f : list string → list string) (m : manager) : manager :=
  mkManager (widgets m) (f (elemTypeArr m)) (aniItems m) (colors m) (props m).

Definition set_aniItems (f : list nat → list nat) (m : manager) : manager :=
  mkManager (widgets m) (elemTypeArr m) (f (aniItems m)) (colors m) (props m).

Definition set_colors (f : gmap string Value → gmap string Value) (m : manager) : manager :=
  mkManager (widgets m) (elemTypeArr m) (aniItems m) (f (colors m)) (props m).

Definition set_props (f : gmap string Value → gmap string Value) (m : manager) : manager :=
  mkManager (widgets m) (elemTypeArr m) (aniItems m) (colors m) (f (props m)).

(** [manager.prototype.colors] *)
Definition default_colors : gmap string Value :=
  <["accent" := VStr "#ff5500"]> (<["fill" := VStr "#eee"]> (<["border" := VStr "#bbb"]>
  (<["black" := VStr "#000"]> (<["white" := VStr "#FFF"]> ∅)))).

(** The state the constructor sets up ([starttime], [isTouchDevice] and
    [metas] come from the clock and the document and are left out). *)
Definition new_manager : manager :=
  mkManager ∅ [] [] default_colors
    (<["throttlePeriod" := VNum 20]> (<["showLabels" := VBool false]>
    (<["destination" := VStr "js"]> (<["ajaxPath" := VStr "lib/nexusOSCRelay.php"]>
    (<["globalWidgets" := VBool true]> (<["font" := VStr "gill sans"]>
    (<["fontSize" := VNum 14]> (<["fontWeight" := VStr "bold"]> ∅)))))))).

(** The page: the manager [nx], the lines written by [console.log], and the
    identifiers under which a widget of the registry has been bound in the
    page-global namespace. *)
Record page : Type := mkPage {
  nx : manager;
  console : list string;
  exposed : gset string
}.

Definition set_nx (f : manager → manager) (p : page) : page :=
  mkPage (f (nx p)) (console p) (exposed p).

Definition console_log (s : string) (p : page) : page :=
  mkPage (nx p) (console p ++ [s]) (exposed p).

Definition expose (k : string) (p : page) : page :=
  mkPage (nx p) (console p) ({[k]} ∪ exposed p).

Definition new_page : page := mkPage new_manager [] ∅.

(** How a call ends: it returns, or an exception propagates to the caller. *)
Inductive exn : Type :=
  | TypeError
  | Thrown (v : Value).

Inductive completion (A : Type) : Type :=
  | Normal (a : A)
  | Throw (e : exn).
Arguments Normal {A} a.
Arguments Throw {A} e.

(** ** Rendering surfaces *)

(** A canvas element: its [id] (the empty string when it has none) and its
    [nx] attribute ([getAttribute] gives null when it is absent). *)
Record Canvas : Type := mkCanvas {
  id : string;
  nx_attr : option string
}.

Definition set_id (s : string) (c : Canvas) : Canvas := mkCanvas s (nx_attr c).

(** ** transform *)

(** Lines 135-139: is there a widget in the registry whose [canvasID] is the
    identifier of the canvas? *)
Definition already_registered (cid : string) (ws : gmap string Widget) : bool :=
  existsb (λ kw, String.eqb (canvasID kw.2) cid) (map_to_list ws).

(** Lines 140-148: the explicit type when it is truthy, the [nx] attribute
    otherwise; [None] when the result is falsy. *)
Definition resolve_type (canvas : Canvas) (type : option string) : option string :=
  let nxType :=
    match type with
    | Some t => if truthy_str t then Some t else nx_attr canvas
    | None => nx_attr canvas
    end in
  match nxType with
  | Some t => if truthy_str t then Some t else None
  | None => None
  end.

(** Lines 157-161: occurrences of the type in the ledger. *)
Fixpoint count_type (nxType : string) (arr : list string) : nat :=
  match arr with
  | [] => 0
  | x :: arr' => (if String.eqb x nxType then 1 else 0) + count_type nxType arr'
  end.

(** Lines 168-171. *)
Definition assign_id (nxType : string) (elemCount : nat) (canvas : Canvas) : Canvas :=
  if truthy_str (id canvas) then canvas
  else set_id (nxType +:+ pretty (elemCount + 1)) canvas.

Section Transform.

(** [require('../widgets')]: the constructor stored under a type name, if
    any; a constructor is given the identifier, may read the manager, and
    gives a widget or throws ([None]). *)
Variable catalog : string → option (string → manager → option Widget).

(** Line 175: [new (require('../widgets')[nxType])(canvas.id)]; [None] when
    the expression throws, be it for an unknown type or in the
    constructor. *)
Definition construct (nxType cid : string) (m : manager) : option Widget :=
  match catalog nxType with
  | Some ctor => ctor cid m
  | None => None
  end.

(** Lines 181-187, for a constructed [newObj]. *)
Definition register (newObj : Widget) (p : page) : page :=
  let p1 := set_nx (set_widgets (insert (canvasID newObj) (init newObj))) p in
  match props (nx p) !! "globalWidgets" with
  | Some g => if truthy g then expose (canvasID newObj) p1 else p1
  | None => p1
  end.

Definition transform (canvas : Canvas) (type : option string) (p : page)
  : page * Canvas * completion (option Widget) :=
  if already_registered (id canvas) (widgets (nx p)) then (p, canvas, Normal None)
  else
    match resolve_type canvas type with
    | None => (p, canvas, Normal None)
    | Some nxType =>
        let elemCount := count_type nxType (elemTypeArr (nx p)) in
        let p1 := set_nx (set_elemTypeArr (λ arr, arr ++ [nxType])) p in
        let canvas1 := assign_id nxType elemCount canvas in
        match construct nxType (id canvas1) (nx p1) with
        | None =>
            (* the catch clause logs; [newObj] is still undefined, and
               reading [newObj.canvasID] on line 181 raises a TypeError *)
            (console_log nxType p1, canvas1, Throw TypeError)
        | Some newObj =>
            (register newObj p1, canvas1, Normal (Some (init newObj)))
        end
    end.

End Transform.

(** Successive calls of [transform], each on a surface of its own; the
    surfaces are given back as the calls leave them. *)
Fixpoint transform_all (catalog : string → option (string → manager → option Widget))
    (calls : list (Canvas * option string)) (p : page) : page * list Canvas :=
  match calls with
  | [] => (p, [])
  | call :: rest =>
      let '(p1, canvas1, _) := transform catalog call.1 call.2 p in
      let '(p2, done) := transform_all catalog rest p1 in
      (p2, canvas1 :: done)
  end.

(** Modelled from the spec: the widget classes of [require('../widgets')]
    are not in manager.js.  A widget is constructed with the identifier it
    is given and with copies of the shared colours, throttle period and label
    flag (spec, section 3). *)
Definition widget_ctor (cid : string) (m : manager) : option Widget :=
  Some (mkWidget cid (colors m)
          (<["throttlePeriod" := default VUndefined (props m !! "throttlePeriod")]>
           (<["showLabels" := default VUndefined (props m !! "showLabels")]> ∅)) 0 0).

Definition sample_catalog (nxType : string) : option (string → manager → option Widget) :=
  if bool_decide (nxType ∈ ["dial"; "toggle"; "button"; "slider"]) then Some widget_ctor else None.

(** The constructors of a catalog give the widget the identifier they are
    called with (spec, section 3: the identifier of a widget equals that of
    its surface). *)
Definition keeps_id (catalog : string → option (string → manager → option Widget)) : Prop :=
  ∀ nxType ctor cid m w, catalog nxType = Some ctor → ctor cid m = Some w → canvasID w = cid.

(** ** Broadcasts *)

(** [colorize], lines 212-226.  [newCol] is [VUndefined] when the call has one
    argument. *)
Definition colorize (aspect : string) (newCol : Value) (m : manager) : manager :=
  let '(aspect, newCol) :=
    if truthy newCol then (aspect, newCol) else ("accent", VStr aspect) in
  set_widgets (fmap (λ w, draw (set_wcolors (set_own aspect newCol) w)))
    (set_colors (set_own aspect newCol) m).

(** [setThrottlePeriod], lines 233-238. *)
Definition setThrottlePeriod (newThrottle : Value) (m : manager) : manager :=
  let m1 := set_props (insert "throttlePeriod" newThrottle) m in
  set_widgets
    (fmap (set_wprops (insert "throttlePeriod" (default VUndefined (props m1 !! "throttlePeriod")))))
    m1.

(** [onoff == "on"]: a string is compared as it is; a number, a boolean, null
    and undefined never equal the string ["on"]; an object is first converted
    by its own methods, which the embedding does not know ([None]). *)
Definition loose_eq_on (onoff : Value) : option bool :=
  match onoff with
  | VStr s => Some (String.eqb s "on")
  | VRef _ => None
  | _ => Some false
  end.

(** [setLabels], lines 330-339; [None] where [loose_eq_on] is. *)
Definition setLabels (onoff : Value) (m : manager) : option manager :=
  match loose_eq_on onoff with
  | Some b =>
      Some (set_widgets (fmap draw) (set_props (insert "showLabels" (VBool b)) m))
  | None => None
  end.

(** Property names that are not plain data for the embedding: the members
    kept as typed fields of [manager] and [Widget], the method [draw] that
    [setProp] itself calls, and ["__proto__"]. *)
Definition structural : list string :=
  ["widgets"; "elemTypeArr"; "aniItems"; "colors"; "canvasID"; "draw"; "__proto__"].

(** [setProp], lines 341-349, on the names that are plain data.  The result
    is [None] for a truthy pair whose name is in [structural]: the assignment
    would replace a member by a value of another type, which [manager] and
    [Widget] cannot hold; [setProp_full] below has the call for every
    name. *)
Definition setProp (prop : string) (val : Value) (m : manager) : option manager :=
  if truthy_str prop && truthy val then
    if bool_decide (prop ∈ structural) then None
    else
      Some (set_widgets (fmap (λ w, draw (set_wprops (insert prop val) w)))
              (set_props (insert prop val) m))
  else Some m.

(** ** Animation callbacks *)

(** [addAni], lines 278-280: the body is empty. *)
Definition addAni (fn : nat) (m : manager) : manager := m.

(** [Array.prototype.indexOf]: the first index holding [fn], or -1. *)
Fixpoint indexOf_from (fn : nat) (l : list nat) (i : Z) : Z :=
  match l with
  | [] => (-1)%Z
  | x :: l' => if Nat.eqb x fn then i else indexOf_from fn l' (i + 1)%Z
  end.

Definition indexOf (fn : nat) (l : list nat) : Z := indexOf_from fn l 0%Z.

(** [Array.prototype.splice] called with [start] alone: a negative [start]
    counts from the end, and every element from the start position to the
    end of the array is removed. *)
Definition splice_from (start : Z) (l : list nat) : list nat :=
  let len := Z.of_nat (length l) in
  let actualStart :=
    if (start <? 0)%Z then Z.max (len + start) 0 else Z.min start len in
  take (Z.to_nat actualStart) l.

(** [removeAni], lines 282-284. *)
Definition removeAni (fn : nat) (m : manager) : manager :=
  set_aniItems (λ l, splice_from (indexOf fn l) l) m.

Section Pulse.

(** What calling a function reference without arguments does to the page,
    and how the call ends (a reference that is not callable ends in a
    TypeError). *)
Variable call : nat → page → page * completion unit.

(** [pulse], lines 272-276: the loop from index [i] on.  The array and its
    length are read again at every turn, so a callback that changes
    [aniItems] changes the rest of the loop; [fuel] bounds the number of
    turns.  The first component lists the references invoked, in order. *)
Fixpoint pulse_from (fuel i : nat) (p : page)
  : option (list nat * page * completion unit) :=
  match fuel with
  | 0 => None
  | S fuel' =>
      match aniItems (nx p) !! i with
      | None => Some ([], p, Normal ())
      | Some fn =>
          match call fn p with
          | (p1, Normal _) =>
              match pulse_from fuel' (S i) p1 with
              | Some (invoked, p2, c) => Some (fn :: invoked, p2, c)
              | None => None
              end
          | (p1, Throw e) => Some ([fn], p1, Throw e)
          end
      end
  end.

Definition pulse (fuel : nat) (p : page) : option (list nat * page * completion unit) :=
  pulse_from fuel 0 p.

(** Stated from the spec, for comparison with [pulse]: every callback of a
    given list once, in the order of the list, up to and including the first
    one that throws. *)
Fixpoint invoke_in_order (fns : list nat) (p : page) : list nat * page * completion unit :=
  match fns with
  | [] => ([], p, Normal ())
  | fn :: rest =>
      match call fn p with
      | (p1, Normal _) =>
          let '(invoked, p2, c) := invoke_in_order rest p1 in (fn :: invoked, p2, c)
      | (p1, Throw e) => ([fn], p1, Throw e)
      end
  end.

End Pulse.

(** A callback table for examples: reference 2 throws, every other one
    writes its number to the console. *)
Definition sample_call (fn : nat) (p : page) : page * completion unit :=
  if Nat.eqb fn 2 then (p, Throw (Thrown (VStr "boom")))
  else (console_log (pretty fn) p, Normal ()).

(** A callback that removes itself from [aniItems] when it runs (reference
    7), among callbacks that only write to the console. *)
Definition self_removing_call (fn : nat) (p : page) : page * completion unit :=
  if Nat.eqb fn 7 then (set_nx (removeAni 7) p, Normal ())
  else (console_log (pretty fn) p, Normal ()).

(** ** Catalogs, pages and lists used in the examples *)

(** The scenario of the spec: an unnamed dial, a dial named ["mainDial"], an
    unnamed dial. *)
Definition dial_scenario : list (Canvas * option string) :=
  [(mkCanvas "" (Some "dial"), None);
   (mkCanvas "mainDial" (Some "dial"), None);
   (mkCanvas "" (Some "dial"), None)].

(** The page after a first dial has been created on the new page. *)
Definition dial_page : page :=
  (transform sample_catalog (mkCanvas "" (Some "dial")) None new_page).1.1.



(** Stated from the spec, for comparison with [removeAni]: the list without
    the first occurrence of [fn]. *)
Fixpoint remove_first (fn : nat) (l : list nat) : list nat :=
  match l with
  | [] => []
  | x :: l' => if Nat.eqb x fn then l' else x :: remove_first fn l'
  end.

(** The manager with the callbacks 1, 2, 3 registered. *)
Definition three_callbacks : manager := set_aniItems (λ _, [1; 2; 3]) new_manager.

(** ** add *)

(** The [parent] setting: the identifier of an element, an element, or a
    jQuery collection of elements.  Elements are given by number. *)
Inductive ParentArg : Type :=
  | ParentId (s : string)
  | ParentElement (e : nat)
  | ParentJQuery (es : list nat).

(** The settings object of [add]; a member that is missing is [VUndefined],
    or [None] for [name] and [parent]. *)
Record Settings : Type := mkSettings {
  args_x : Value;
  args_y : Value;
  args_w : Value;
  args_h : Value;
  args_name : option string;
  args_parent : option ParentArg
}.

(** Where a canvas is appended: the body of the document or an element. *)
Inductive Node : Type :=
  | Body
  | Elem (e : nat).

(** The canvas element [add] creates, with the assignments made to it:
    [style_left] and [style_top] hold the value [v] of the assigned string
    [v + "px"]; [style_width] and [attr_width] hold the value assigned to
    [canv.style.width] and to [canv.width], and likewise for the height. *)
Record CanvasElement : Type := mkCanvasElement {
  el_canvas : Canvas;
  style_position : option string;
  style_left : option Value;
  style_top : option Value;
  style_width : option Value;
  attr_width : option Value;
  style_height : option Value;
  attr_height : option Value
}.

Definition set_el_canvas (c : Canvas) (e : CanvasElement) : CanvasElement :=
  mkCanvasElement c (style_position e) (style_left e) (style_top e)
    (style_width e) (attr_width e) (style_height e) (attr_height e).

(** [v] when it is truthy. *)
Definition when_truthy (v : Value) : option Value :=
  if truthy v then Some v else None.

(** Lines 87-120: the canvas with its [nx] attribute, style and [id]. *)
Definition new_canvas (type : string) (args : option Settings) : CanvasElement :=
  match args with
  | None => mkCanvasElement (mkCanvas "" (Some type)) None None None None None None None
  | Some a =>
      mkCanvasElement
        (mkCanvas
           match args_name a with
           | Some n => if truthy_str n then n else ""
           | None => ""
           end
           (Some type))
        (if truthy (args_x a) || truthy (args_y a) then Some "absolute" else None)
        (when_truthy (args_x a)) (when_truthy (args_y a))
        (when_truthy (args_w a)) (when_truthy (args_w a))
        (when_truthy (args_h a)) (when_truthy (args_h a))
  end.

Section Add.

Variable catalog : string → option (string → manager → option Widget).

(** [document.getElementById] at the time of the call. *)
Variable getElementById : string → option nat.

(** Lines 107-116 and 121-123: the parent the settings name, and the body of
    the document when they name none or the one they name does not exist. *)
Definition resolve_parent (args : option Settings) : Node :=
  match args with
  | Some a =>
      match args_parent a with
      | Some (ParentId s) =>
          if truthy_str s then
            match getElementById s with
            | Some e => Elem e
            | None => Body
            end
          else Body
      | Some (ParentElement e) => Elem e
      | Some (ParentJQuery es) =>
          match es with
          | e :: _ => Elem e
          | [] => Body
          end
      | None => Body
      end
  | None => Body
  end.

(** [add], lines 83-127.  The second component is the canvas appended to the
    document, with its parent, as [transform] leaves it; it is [None] when no
    canvas is created. *)
Definition add (type : string) (args : option Settings) (p : page)
  : page * option (Node * CanvasElement) * completion (option Widget) :=
  if truthy_str type then
    let canv := new_canvas type args in
    let '(p1, canvas1, out) := transform catalog (el_canvas canv) None p in
    (p1, Some (resolve_parent args, set_el_canvas canvas1 canv), out)
  else (p, None, Normal None).

End Add.

(** ** The pulse timer *)

(** The interval timers of the page: the active ones, each with its code and
    its period, and the handle the next timer gets.  Handles are given out in
    increasing order. *)
Record Timers : Type := mkTimers {
  next_handle : nat;
  active : gmap nat (string * nat)
}.

(** [setInterval(code, period)] *)
Definition setInterval (code : string) (period : nat) (tm : Timers) : nat * Timers :=
  (next_handle tm,
   mkTimers (S (next_handle tm)) (<[next_handle tm := (code, period)]> (active tm))).

(** The handle an argument of [clearInterval] stands for: undefined, null,
    NaN and false give 0, true gives 1, a number from 0 to 2^31 - 1 itself.
    Other numbers wrap around, and strings and objects are converted first;
    these are left out ([None]). *)
Definition to_handle (v : Value) : option nat :=
  match v with
  | VUndefined | VNull | VNaN => Some 0
  | VBool b => Some (if b then 1 else 0)
  | VNum z => if ((0 <=? z) && (z <? 2 ^ 31))%Z then Some (Z.to_nat z) else None
  | VStr _ | VRef _ => None
  end.

(** [clearInterval(v)]; [None] where [to_handle] is. *)
Definition clearInterval (v : Value) (tm : Timers) : option Timers :=
  match to_handle v with
  | Some h => Some (mkTimers (next_handle tm) (delete h (active tm)))
  | None => None
  end.

(** [startPulse], lines 258-260. *)
Definition startPulse (s : manager * Timers) : manager * Timers :=
  let '(h, tm) := setInterval "nx.pulse()" 30 s.2 in
  (set_props (insert "pulseInt" (VNum (Z.of_nat h))) s.1, tm).

(** [stopPulse], lines 265-267; [None] where [clearInterval] is. *)
Definition stopPulse (s : manager * Timers) : option (manager * Timers) :=
  match clearInterval (default VUndefined (props s.1 !! "pulseInt")) s.2 with
  | Some tm => Some (s.1, tm)
  | None => None
  end.

(** ** setViewport *)

(** A meta element of the document. *)
Record Meta : Type := mkMeta {
  meta_name : string;
  meta_content : string
}.

(** The string a value becomes in a concatenation; an integer up to 2^53 is
    written with its decimal digits, and the conversion of larger numbers and
    of objects is left out ([None]). *)
Definition to_String (v : Value) : option string :=
  match v with
  | VUndefined => Some "undefined"
  | VNull => Some "null"
  | VBool b => Some (if b then "true" else "false")
  | VNum z => if (Z.abs z <=? 2 ^ 53)%Z then Some (pretty z) else None
  | VNaN => Some "NaN"
  | VStr s => Some s
  | VRef _ => None
  end.

(** Lines 320-322, for one meta element. *)
Definition set_viewport_meta (scale : Value) (mt : Meta) : option Meta :=
  if String.eqb (meta_name mt) "viewport" then
    s ← to_String scale;
    Some (mkMeta (meta_name mt) ("minimum-scale=" +:+ s +:+ ", maximum-scale=" +:+ s))
  else Some mt.

(** [setViewport], lines 318-324, on the meta elements of the document that
    the manager holds as [metas].  The result is [None] where [to_String] is,
    and when [setProp] has put another value in the place of [metas]. *)
Definition setViewport (scale : Value) (m : manager) (metas : list Meta) : option (list Meta) :=
  match props m !! "metas" with
  | Some _ => None
  | None => mapM (set_viewport_meta scale) metas
  end.

(** ** blockMove *)

(** An event: the tag name of its target, whether it can be cancelled, and
    its two flags.  It is a DOM event, which has no method
    [stopPropogation]. *)
Record Event : Type := mkEvent {
  target_tagName : string;
  cancelable : bool;
  defaultPrevented : bool;
  propagationStopped : bool
}.

(** [e.preventDefault()] *)
Definition preventDefault (e : Event) : Event :=
  mkEvent (target_tagName e) (cancelable e) (cancelable e || defaultPrevented e)
    (propagationStopped e).

(** [blockMove], lines 351-356: after [preventDefault], the call of the
    missing method [stopPropogation] raises a TypeError. *)
Definition blockMove (e : Event) : Event * completion unit :=
  if String.eqb (target_tagName e) "CANVAS" then (preventDefault e, Throw TypeError)
  else (e, Normal ()).

(** ** More examples *)

(** A callback table in which every callback registers one more callback. *)
Definition registering_call (fn : nat) (p : page) : page * completion unit :=
  (set_nx (set_aniItems (λ l, l ++ [fn])) p, Normal ()).

(** The page with a toggle that was given the name ["dial1"]. *)
Definition named_toggle_page : page :=
  (transform sample_catalog (mkCanvas "dial1" (Some "toggle")) None new_page).1.1.

(** A document in which the element 5 has the identifier ["panel"]. *)
Definition panel_document (s : string) : option nat :=
  if String.eqb s "panel" then Some 5 else None.

(** The registry invariant: every widget is stored under its identifier. *)
Definition keyed_by_id (ws : gmap string Widget) : Prop :=
  map_Forall (λ k w, canvasID w = k) ws.

(** ** setProp on the names of members *)

(** The members of the manager, and of a widget, that the records keep as
    typed fields (for a widget also its method [draw]).  An assignment to one
    of these names replaces the member by the assigned value. *)
Definition manager_members : list string := ["widgets"; "elemTypeArr"; "aniItems"; "colors"].

Definition widget_members : list string := ["canvasID"; "colors"; "draw"].

(** The manager after a call of [setProp]: [after] has the data properties
    and the draw counts after the call and the typed members as they were
    before it; [manager_shadow] holds the members of the manager that the
    call replaced by a value, and [widget_shadow] the replaced members of the
    widget under each key. *)
Record AfterSetProp : Type := mkAfterSetProp {
  after : manager;
  manager_shadow : gmap string Value;
  widget_shadow : gmap string (gmap string Value)
}.

(** The value the manager holds under a name after the call, when the name
    is a data property or a replaced member. *)
Definition manager_property (r : AfterSetProp) (prop : string) : option Value :=
  if bool_decide (prop ∈ manager_members) then manager_shadow r !! prop
  else props (after r) !! prop.

(** The same for the widget under the key [k]. *)
Definition widget_property (r : AfterSetProp) (k prop : string) : option Value :=
  if bool_decide (prop ∈ widget_members) then widget_shadow r !! k ≫= (λ o, o !! prop)
  else widgets (after r) !! k ≫= (λ w, wprops w !! prop).

(** Line 343, [nx[prop] = val], for a name other than ["__proto__"]: the
    manager and the member replaced, if any. *)
Definition assign_manager (prop : string) (val : Value) (m : manager)
  : manager * gmap string Value :=
  if bool_decide (prop ∈ manager_members) then (m, {[prop := val]})
  else (set_props (insert prop val) m, ∅).

(** Lines 345-346 for one widget and a name other than ["__proto__"] and
    ["draw"]: the assignment, which leaves the typed fields alone, and the
    call of [draw]. *)
Definition assign_widget_draw (prop : string) (val : Value) (w : Widget) : Widget :=
  draw (if bool_decide (prop ∈ widget_members) then w else set_wprops (insert prop val) w).

Section SetPropFull.

(** The keys of the registry in the order in which [for .. in] goes through
    them, which the registry of the embedding does not keep. *)
Variable for_in : gmap string Widget → list string.

(** [setProp], lines 341-349, for every name.
    - ["__proto__"]: the assignment of a value that is not an object changes
      nothing, and every widget is redrawn.
    - ["widgets"]: the loop runs over the assigned value instead of the
      registry.  A number or a boolean has nothing to go through; a string
      has its characters, and the call of [draw] on the first of them raises
      a TypeError.
    - ["draw"]: the first widget of the loop has its method replaced by the
      value, and calling it raises a TypeError.
    - every other name: the assignment to the manager and to every widget,
      and the redraw of every widget.
    The result is [None] when an object or a function is assigned to one of
    the first three names: what happens then depends on that object. *)
Definition setProp_full (prop : string) (val : Value) (m : manager)
  : option (AfterSetProp * completion unit) :=
  if truthy_str prop && truthy val then
    if String.eqb prop "__proto__" then
      match val with
      | VRef _ => None
      | _ => Some (mkAfterSetProp (set_widgets (fmap draw) m) ∅ ∅, Normal ())
      end
    else if String.eqb prop "widgets" then
      match val with
      | VRef _ => None
      | VStr _ => Some (mkAfterSetProp m {["widgets" := val]} ∅, Throw TypeError)
      | _ => Some (mkAfterSetProp m {["widgets" := val]} ∅, Normal ())
      end
    else if String.eqb prop "draw" then
      match val with
      | VRef _ => None
      | _ =>
          match for_in (widgets m) with
          | [] => Some (mkAfterSetProp (set_props (insert "draw" val) m) ∅ ∅, Normal ())
          | k :: _ =>
              Some (mkAfterSetProp (set_props (insert "draw" val) m) ∅
                      {[k := {["draw" := val]}]},
                    Throw TypeError)
          end
      end
    else
      Some (mkAfterSetProp
              (set_widgets (fmap (assign_widget_draw prop val)) (assign_manager prop val m).1)
              (assign_manager prop val m).2
              (if bool_decide (prop ∈ widget_members)
               then (λ _, {[prop := val]}) <$> widgets m else ∅),
            Normal ())
  else Some (mkAfterSetProp m ∅ ∅, Normal ()).

End SetPropFull.

(** An order of enumeration for the examples. *)
Definition sample_for_in (ws : gmap string Widget) : list string := (map_to_list ws).*1.


(** * Properties *)

(** ** Helper lemmas on the registry guard and the ledger *)

Lemma already_registered_true cid (ws : gmap string Widget) :
  already_registered cid ws = true ↔ ∃ k w, ws !! k = Some w ∧ canvasID w = cid.
Proof.
  unfold already_registered. rewrite existsb_exists. split.
  - intros [[k w] [Hin Heq]]. exists k, w. split.
    + by apply elem_of_map_to_list, list_elem_of_In.
    + by apply String.eqb_eq.
  - intros (k & w & Hk & Heq). exists (k, w). split.
    + by apply list_elem_of_In, elem_of_map_to_list.
    + by apply String.eqb_eq.
Qed.

Lemma already_registered_false cid (ws : gmap string Widget) :
  already_registered cid ws = false ↔ map_Forall (λ _ w, canvasID w ≠ cid) ws.
Proof.
  rewrite <- not_true_iff_false, already_registered_true. split.
  - intros Hno k w Hk Heq. apply Hno. eauto.
  - intros Hall (k & w & Hk & Heq). by apply (Hall k w).
Qed.

Lemma truthy_str_true s : truthy_str s = true ↔ s ≠ "".
Proof.
  unfold truthy_str. rewrite negb_true_iff, <- not_true_iff_false.
  by rewrite String.eqb_eq.
Qed.

Lemma resolve_type_nonempty canvas type t :
  resolve_type canvas type = Some t → t ≠ "".
Proof.
  unfold resolve_type. intros H. apply truthy_str_true.
  destruct type as [ty|]; [destruct (truthy_str ty) eqn:Hty|];
    repeat (case_match; simplify_eq); done.
Qed.

Lemma append_nonempty (s1 s2 : string) : s1 ≠ "" → s1 +:+ s2 ≠ "".
Proof. by destruct s1. Qed.

Lemma count_type_snoc t x arr :
  count_type t (arr ++ [x]) = count_type t arr + (if String.eqb x t then 1 else 0).
Proof. induction arr as [|y arr IH]; simpl; [lia | rewrite IH; lia]. Qed.

Lemma assign_id_unnamed t n canvas :
  id canvas = "" → id (assign_id t n canvas) = t +:+ pretty (n + 1).
Proof. unfold assign_id. by intros ->. Qed.

Lemma assign_id_named t n canvas :
  id canvas ≠ "" → assign_id t n canvas = canvas.
Proof. unfold assign_id. intros H%truthy_str_true. by rewrite H. Qed.

(** What one call does once the guard is passed and the type is resolved:
    the ledger grows by the type, the surface gets its identifier, and the
    registry is either left alone (construction failed) or extended by the
    new widget. *)
Lemma transform_resolved catalog canvas type p t :
  already_registered (id canvas) (widgets (nx p)) = false →
  resolve_type canvas type = Some t →
  ∃ p1 out,
    transform catalog canvas type p
      = (p1, assign_id t (count_type t (elemTypeArr (nx p))) canvas, out) ∧
    elemTypeArr (nx p1) = elemTypeArr (nx p) ++ [t] ∧
    (widgets (nx p1) = widgets (nx p) ∨
     ∃ ctor w, catalog t = Some ctor ∧
       ctor (id (assign_id t (count_type t (elemTypeArr (nx p))) canvas))
            (set_elemTypeArr (λ arr, arr ++ [t]) (nx p)) = Some w ∧
       widgets (nx p1) = <[canvasID w := init w]> (widgets (nx p))).
Proof.
  intros Hguard Hty. unfold transform. rewrite Hguard, Hty.
  unfold construct. destruct (catalog t) as [ctor|] eqn:Hcat.
  - destruct (ctor _ _) as [w|] eqn:Hctor.
    + eexists _, _. split; [reflexivity|]. split.
      * unfold register. simpl. repeat case_match; done.
      * right. exists ctor, w. repeat split; try done.
        unfold register. simpl. repeat case_match; done.
    + eexists _, _. split; [reflexivity|]. split; [done | by left].
  - eexists _, _. split; [reflexivity|]. split; [done | by left].
Qed.

Lemma sample_catalog_keeps_id : keeps_id sample_catalog.
Proof.
  intros nxType ctor cid m w. unfold sample_catalog.
  case_bool_decide; [|done]. intros [= <-]. unfold widget_ctor. by intros [= <-].
Qed.

(** One step of a run of unnamed surfaces of type [t]. *)
Lemma transform_unnamed_step catalog canvas type p t :
  keeps_id catalog →
  id canvas = "" →
  resolve_type canvas type = Some t →
  map_Forall (λ _ w, canvasID w ≠ "") (widgets (nx p)) →
  ∃ p1 canvas1 out,
    transform catalog canvas type p = (p1, canvas1, out) ∧
    id canvas1 = t +:+ pretty (count_type t (elemTypeArr (nx p)) + 1) ∧
    count_type t (elemTypeArr (nx p1)) = count_type t (elemTypeArr (nx p)) + 1 ∧
    map_Forall (λ _ w, canvasID w ≠ "") (widgets (nx p1)).
Proof.
  intros Hcat Hid Hty Hreg.
  destruct (transform_resolved catalog canvas type p t) as (p1 & out & Heq & Hledger & Hws).
  { apply already_registered_false. by rewrite Hid. }
  { done. }
  eexists p1, _, out. split; [exact Heq|]. split; [by apply assign_id_unnamed|]. split.
  - rewrite Hledger, count_type_snoc, String.eqb_refl. done.
  - destruct Hws as [-> | (ctor & w & Hc & Hw & ->)]; [done|].
    apply map_Forall_insert_2; [|done]. simpl.
    rewrite (Hcat _ _ _ _ _ Hc Hw), assign_id_unnamed by done.
    apply append_nonempty. by eapply resolve_type_nonempty.
Qed.

Lemma transform_all_unnamed catalog t calls : ∀ p,
  keeps_id catalog →
  Forall (λ call, id call.1 = "" ∧ resolve_type call.1 call.2 = Some t) calls →
  map_Forall (λ _ w, canvasID w ≠ "") (widgets (nx p)) →
  map id (transform_all catalog calls p).2
    = map (λ k, t +:+ pretty k)
          (seq (count_type t (elemTypeArr (nx p)) + 1) (length calls)).
Proof.
  induction calls as [|[canvas type] calls IH]; intros p Hcat Hcalls Hreg; [done|].
  apply Forall_cons in Hcalls as [[Hid Hty] Hcalls]. simpl in Hid, Hty.
  destruct (transform_unnamed_step catalog canvas type p t Hcat Hid Hty Hreg)
    as (p1 & canvas1 & out & Heq & Hid1 & Hcount & Hreg1).
  simpl. rewrite Heq.
  specialize (IH p1 Hcat Hcalls Hreg1).
  destruct (transform_all catalog calls p1) as [p2 done_] eqn:Hrest.
  simpl in *. rewrite Hid1, IH, Hcount.
  by rewrite (Nat.add_1_r (_ + 1)).
Qed.

(** ** C1: sequential identifiers *)

(** C1. A run of [transform] calls on surfaces without identifier that all
    resolve to the type [t], started where the ledger has no entry for [t],
    assigns the identifiers [t1], [t2], [t3], ... in the order of the calls.
    (The registry holds no widget with an empty identifier, and constructors
    give a widget the identifier they receive.) *)
Theorem transform_sequential_ids catalog t calls p :
  keeps_id catalog →
  Forall (λ call, id call.1 = "" ∧ resolve_type call.1 call.2 = Some t) calls →
  count_type t (elemTypeArr (nx p)) = 0 →
  map_Forall (λ _ w, canvasID w ≠ "") (widgets (nx p)) →
  map id (transform_all catalog calls p).2
    = map (λ k, t +:+ pretty k) (seq 1 (length calls)).
Proof.
  intros Hcat Hcalls Hzero Hreg.
  rewrite (transform_all_unnamed catalog t calls p Hcat Hcalls Hreg).
  by rewrite Hzero.
Qed.

Lemma transform_sequential_ids_witness :
  map id (transform_all sample_catalog
            [(mkCanvas "" (Some "dial"), None); (mkCanvas "" None, Some "dial");
             (mkCanvas "" (Some "toggle"), Some "dial")] new_page).2
    = map (λ k, "dial" +:+ pretty k) (seq 1 3).
Proof.
  apply (transform_sequential_ids sample_catalog "dial"
           [(mkCanvas "" (Some "dial"), None); (mkCanvas "" None, Some "dial");
            (mkCanvas "" (Some "toggle"), Some "dial")] new_page).
  - exact sample_catalog_keeps_id.
  - repeat constructor.
  - reflexivity.
  - apply map_Forall_empty.
Defined.

(** ** C2: the ledger counts every widget of a type *)

(** With constructors that keep the identifier, a call that passes the guard
    preserves any bound on the identifiers in the registry that the new
    identifier meets. *)
Lemma transform_resolved_ids catalog canvas type p t (P : string → Prop) :
  keeps_id catalog →
  already_registered (id canvas) (widgets (nx p)) = false →
  resolve_type canvas type = Some t →
  map_Forall (λ _ w, P (canvasID w)) (widgets (nx p)) →
  P (id (assign_id t (count_type t (elemTypeArr (nx p))) canvas)) →
  ∃ p1 out,
    transform catalog canvas type p
      = (p1, assign_id t (count_type t (elemTypeArr (nx p))) canvas, out) ∧
    elemTypeArr (nx p1) = elemTypeArr (nx p) ++ [t] ∧
    map_Forall (λ _ w, P (canvasID w)) (widgets (nx p1)).
Proof.
  intros Hcat Hguard Hty Hreg Hnew.
  destruct (transform_resolved catalog canvas type p t Hguard Hty)
    as (p1 & out & Heq & Hledger & Hws).
  exists p1, out. split; [done|]. split; [done|].
  destruct Hws as [-> | (ctor & w & Hc & Hw & ->)]; [done|].
  apply map_Forall_insert_2; [|done]. simpl.
  by rewrite (Hcat _ _ _ _ _ Hc Hw).
Qed.

(** C2. Every call of [transform] that passes the guard and resolves a type
    appends that type to the ledger, whether or not the surface has an
    identifier of its own; so an unnamed dial, a dial named ["mainDial"] and
    another unnamed dial get the identifiers ["dial1"], ["mainDial"] and
    ["dial3"]. *)
Theorem transform_ledger_counts_named catalog :
  (∀ canvas type p t,
      already_registered (id canvas) (widgets (nx p)) = false →
      resolve_type canvas type = Some t →
      elemTypeArr (nx (transform catalog canvas type p).1.1) = elemTypeArr (nx p) ++ [t]) ∧
  (∀ p,
      keeps_id catalog →
      count_type "dial" (elemTypeArr (nx p)) = 0 →
      map_Forall (λ _ w, canvasID w ≠ "" ∧ canvasID w ≠ "mainDial") (widgets (nx p)) →
      map id (transform_all catalog dial_scenario p).2 = ["dial1"; "mainDial"; "dial3"]).
Proof.
  split.
  - intros canvas type p t Hguard Hty.
    destruct (transform_resolved catalog canvas type p t Hguard Hty)
      as (p1 & out & -> & Hledger & _). done.
  - intros p Hcat Hzero Hreg. unfold dial_scenario.
    (* first call: the unnamed dial *)
    destruct (transform_resolved_ids catalog (mkCanvas "" (Some "dial")) None p "dial"
                (λ s, s ≠ "" ∧ s ≠ "mainDial"))
      as (p1 & out1 & Heq1 & Hledger1 & Hreg1); try done.
    { apply already_registered_false. eapply map_Forall_impl; [exact Hreg|]. by intros ?? [??]. }
    (* second call: the named dial *)
    destruct (transform_resolved_ids catalog (mkCanvas "mainDial" (Some "dial")) None p1 "dial"
                (λ s, s ≠ ""))
      as (p2 & out2 & Heq2 & Hledger2 & Hreg2); try done.
    { apply already_registered_false. eapply map_Forall_impl; [exact Hreg1|]. by intros ?? [??]. }
    { eapply map_Forall_impl; [exact Hreg1|]. by intros ?? [??]. }
    (* third call: an unnamed dial again *)
    destruct (transform_resolved_ids catalog (mkCanvas "" (Some "dial")) None p2 "dial"
                (λ s, s ≠ ""))
      as (p3 & out3 & Heq3 & Hledger3 & Hreg3); try done.
    { by apply already_registered_false. }
    simpl. rewrite Heq1, Heq2, Heq3. simpl.
    rewrite Hledger2, Hledger1, !count_type_snoc, Hzero. reflexivity.
Qed.

Lemma transform_ledger_counts_named_witness :
  elemTypeArr (nx (transform sample_catalog (mkCanvas "mainDial" (Some "dial")) None
                     new_page).1.1) = elemTypeArr (nx new_page) ++ ["dial"] ∧
  map id (transform_all sample_catalog dial_scenario new_page).2
    = ["dial1"; "mainDial"; "dial3"].
Proof.
  split.
  - apply (proj1 (transform_ledger_counts_named sample_catalog)
             (mkCanvas "mainDial" (Some "dial")) None new_page "dial");
      reflexivity.
  - apply (proj2 (transform_ledger_counts_named sample_catalog) new_page).
    + exact sample_catalog_keeps_id.
    + reflexivity.
    + apply map_Forall_empty.
Defined.

(** ** C3: a registered surface is not transformed again *)

Lemma transform_guard catalog canvas type p :
  (∃ k w, widgets (nx p) !! k = Some w ∧ canvasID w = id canvas) →
  transform catalog canvas type p = (p, canvas, Normal None).
Proof.
  intros Hreg%already_registered_true. unfold transform. by rewrite Hreg.
Qed.

(** C3. When the registry holds a widget whose identifier is that of the
    surface, [transform] returns nothing and leaves the page as it is: the
    registry, the ledger and the surface are unchanged. *)
Theorem transform_registered_noop catalog canvas type p :
  (∃ k w, widgets (nx p) !! k = Some w ∧ canvasID w = id canvas) →
  transform catalog canvas type p = (p, canvas, Normal None).
Proof. apply transform_guard. Qed.

Lemma transform_registered_noop_witness :
  transform sample_catalog (mkCanvas "dial1" (Some "dial")) None dial_page
    = (dial_page, mkCanvas "dial1" (Some "dial"), Normal None).
Proof.
  apply (transform_registered_noop sample_catalog (mkCanvas "dial1" (Some "dial")) None dial_page).
  exists "dial1", (init (mkWidget "dial1" default_colors
     (<["throttlePeriod" := VNum 20]> (<["showLabels" := VBool false]> ∅)) 0 0)).
  split; [vm_compute; reflexivity | reflexivity].
Defined.

(** Two calls in a row on one surface: when the first call returns a widget,
    the second returns nothing and changes nothing. *)
Lemma transform_twice catalog canvas type type' p p1 canvas1 w :
  keeps_id catalog →
  transform catalog canvas type p = (p1, canvas1, Normal (Some w)) →
  transform catalog canvas1 type' p1 = (p1, canvas1, Normal None).
Proof.
  intros Hcat Hfirst. apply transform_guard.
  unfold transform in Hfirst.
  destruct (already_registered _ _); [done|].
  destruct (resolve_type canvas type) as [t|]; [|done].
  unfold construct in Hfirst.
  destruct (catalog t) as [ctor|] eqn:Hc; [|done].
  destruct (ctor _ _) as [newObj|] eqn:Hw; [|done].
  injection Hfirst as <- <- <-.
  exists (canvasID newObj), (init newObj). split.
  - unfold register. simpl. repeat case_match; simpl; by rewrite lookup_insert_eq.
  - simpl. by rewrite (Hcat _ _ _ _ _ Hc Hw).
Qed.

(** ** C4: a construction that throws *)




(** ** C5: removeAni *)

Lemma indexOf_from_absent fn l i :
  fn ∉ l → indexOf_from fn l i = (-1)%Z.
Proof.
  revert i. induction l as [|x l IH]; intros i Hnot; [done|]. simpl.
  apply not_elem_of_cons in Hnot as [Hne Hnot].
  destruct (Nat.eqb_spec x fn) as [->|_]; [done|]. by apply IH.
Qed.

Lemma indexOf_from_first fn l1 l2 i :
  fn ∉ l1 → indexOf_from fn (l1 ++ fn :: l2) i = (i + Z.of_nat (length l1))%Z.
Proof.
  revert i. induction l1 as [|x l1 IH]; intros i Hnot; simpl.
  - rewrite Nat.eqb_refl. lia.
  - apply not_elem_of_cons in Hnot as [Hne Hnot].
    destruct (Nat.eqb_spec x fn) as [->|_]; [done|]. rewrite IH by done. lia.
Qed.

(** What [removeAni] does to the list: when [fn] occurs, its first occurrence
    and everything after it go. *)
Lemma removeAni_present fn l1 l2 m :
  aniItems m = l1 ++ fn :: l2 → fn ∉ l1 →
  aniItems (removeAni fn m) = l1.
Proof.
  intros Hl Hnot. unfold removeAni, indexOf, splice_from. simpl.
  rewrite Hl, indexOf_from_first by done.
  rewrite length_app. simpl.
  destruct (Z.ltb_spec (0 + Z.of_nat (length l1)) 0) as [?|_]; [lia|].
  rewrite Z.min_l by lia. rewrite Z.add_0_l, Nat2Z.id.
  by rewrite take_app_length.
Qed.

(** When [fn] does not occur, the last entry goes. *)
Lemma removeAni_absent fn m :
  fn ∉ aniItems m →
  aniItems (removeAni fn m) = take (length (aniItems m) - 1) (aniItems m).
Proof.
  intros Hnot. unfold removeAni, indexOf, splice_from. simpl.
  rewrite indexOf_from_absent by done. simpl. f_equal. lia.
Qed.

(** C5. [removeAni] at the callbacks [1; 2; 3]: removing 1 empties the list
    (the claim has [2; 3]), removing 2 leaves [1] (the claim has [1; 3]), and
    removing 9, which is not in the list, leaves [1; 2] (the claim has the
    list unchanged). *)
Theorem removeAni_truncates :
  aniItems (removeAni 1 three_callbacks) = [] ∧
  remove_first 1 (aniItems three_callbacks) = [2; 3] ∧
  aniItems (removeAni 2 three_callbacks) = [1] ∧
  remove_first 2 (aniItems three_callbacks) = [1; 3] ∧
  aniItems (removeAni 9 three_callbacks) = [1; 2] ∧
  remove_first 9 (aniItems three_callbacks) = [1; 2; 3].
Proof. repeat split; reflexivity. Qed.

(** ** C6: setProp *)

Lemma setProp_truthy prop val m :
  prop ≠ "" → truthy val = true → prop ∉ structural →
  setProp prop val m
    = Some (set_widgets (fmap (λ w, draw (set_wprops (insert prop val) w)))
              (set_props (insert prop val) m)).
Proof.
  intros Hprop%truthy_str_true Hval Hstruct. unfold setProp.
  rewrite Hprop, Hval. simpl. by rewrite bool_decide_eq_false_2.
Qed.

Lemma setProp_falsy prop val m :
  prop = "" ∨ truthy val = false → setProp prop val m = Some m.
Proof.
  unfold setProp. intros [-> | ->]; [done|]. by rewrite andb_false_r.
Qed.

(** A falsy value is not broadcast: switching [globalWidgets] off through
    [setProp] changes nothing, on the manager or on the widget, and redraws
    nothing. *)
Lemma setProp_false_not_broadcast :
  props (nx dial_page) !! "globalWidgets" = Some (VBool true) ∧
  setProp "globalWidgets" (VBool false) (nx dial_page) = Some (nx dial_page) ∧
  ¬ (∃ m', setProp "globalWidgets" (VBool false) (nx dial_page) = Some m' ∧
           props m' !! "globalWidgets" = Some (VBool false)) ∧
  ¬ (∃ m' w, setProp "globalWidgets" (VBool false) (nx dial_page) = Some m' ∧
             widgets m' !! "dial1" = Some w ∧
             (wprops w !! "globalWidgets" = Some (VBool false) ∨ draws w ≠ 0)).
Proof.
  split; [by vm_compute|]. split; [reflexivity|]. split.
  - intros (m' & [= <-] & H). vm_compute in H. discriminate H.
  - intros (m' & w & [= <-] & Hw & H). vm_compute in Hw. injection Hw as <-.
    destruct H as [H | H]; vm_compute in H; [discriminate H | by apply H].
Qed.

(** On the names that are plain data: for a non-empty name that is not one
    of [structural] and a truthy value, [setProp] sets the name to the value
    on the manager and on every registered widget and redraws every
    registered widget once, and nothing else changes.  For an empty name or a
    falsy value the call does nothing. *)
Theorem setProp_broadcast prop val m :
  (prop ≠ "" → truthy val = true → prop ∉ structural →
   ∃ m', setProp prop val m = Some m' ∧
     props m' = <[prop := val]> (props m) ∧
     (∀ k, widgets m' !! k
           = (λ w, mkWidget (canvasID w) (wcolors w) (<[prop := val]> (wprops w))
                     (inits w) (S (draws w))) <$> widgets m !! k) ∧
     elemTypeArr m' = elemTypeArr m ∧ aniItems m' = aniItems m ∧ colors m' = colors m) ∧
  (prop = "" ∨ truthy val = false → setProp prop val m = Some m).
Proof.
  split; [|apply setProp_falsy].
  intros Hprop Hval Hstruct. eexists. split; [by apply setProp_truthy|].
  split; [done|]. split; [|done].
  intros k. simpl. by rewrite lookup_fmap.
Qed.

Lemma setProp_broadcast_witness :
  (∃ m', setProp "zoom" (VNum 2) (nx dial_page) = Some m' ∧
     props m' = <["zoom" := VNum 2]> (props (nx dial_page)) ∧
     (∀ k, widgets m' !! k
           = (λ w, mkWidget (canvasID w) (wcolors w) (<["zoom" := VNum 2]> (wprops w))
                     (inits w) (S (draws w))) <$> widgets (nx dial_page) !! k) ∧
     elemTypeArr m' = elemTypeArr (nx dial_page) ∧
     aniItems m' = aniItems (nx dial_page) ∧ colors m' = colors (nx dial_page)) ∧
  setProp "zoom" (VNum 0) (nx dial_page) = Some (nx dial_page).
Proof.
  split.
  - apply (proj1 (setProp_broadcast "zoom" (VNum 2) (nx dial_page))).
    + discriminate.
    + reflexivity.
    + apply (bool_decide_eq_false_1 ("zoom" ∈ structural)). vm_compute. reflexivity.
  - apply (proj2 (setProp_broadcast "zoom" (VNum 0) (nx dial_page))).
    right. reflexivity.
Defined.

(** ** C7 and C9: colorize with one argument *)

Lemma colorize_truthy aspect newCol m :
  truthy newCol = true →
  colorize aspect newCol m
    = set_widgets (fmap (λ w, draw (set_wcolors (set_own aspect newCol) w)))
        (set_colors (set_own aspect newCol) m).
Proof. unfold colorize. by intros ->. Qed.

Lemma colorize_falsy aspect newCol m :
  truthy newCol = false →
  colorize aspect newCol m
    = set_widgets (fmap (λ w, draw (set_wcolors (insert "accent" (VStr aspect)) w)))
        (set_colors (insert "accent" (VStr aspect)) m).
Proof. unfold colorize. by intros ->. Qed.

(** C7, as the spec has it, fails for the empty colour string: alone it makes
    the accent the empty string, after ["accent"] it makes the accent the
    string ["accent"]. *)
Lemma colorize_empty_color_differs :
  colors (colorize "" VUndefined (nx dial_page)) !! "accent" = Some (VStr "") ∧
  colors (colorize "accent" (VStr "") (nx dial_page)) !! "accent" = Some (VStr "accent") ∧
  colorize "" VUndefined (nx dial_page) ≠ colorize "accent" (VStr "") (nx dial_page).
Proof.
  split; [by vm_compute|]. split; [by vm_compute|].
  intros H. apply (f_equal (λ m, colors m !! "accent")) in H.
  vm_compute in H. discriminate H.
Qed.

(** C7 (amended). For every non-empty colour string [c], [colorize] called
    with [c] alone does what it does when called with ["accent"] and [c]: the
    managers after the two calls are equal, shared colours, colours of every
    widget and redraws included. *)
Theorem colorize_single_argument c m :
  c ≠ "" →
  colorize c VUndefined m = colorize "accent" (VStr c) m.
Proof.
  intros Hc%truthy_str_true.
  rewrite (colorize_falsy c VUndefined) by done.
  rewrite (colorize_truthy "accent" (VStr c)) by done.
  reflexivity.
Qed.

Lemma colorize_single_argument_witness :
  colorize "#112233" VUndefined (nx dial_page)
    = colorize "accent" (VStr "#112233") (nx dial_page).
Proof.
  apply (colorize_single_argument "#112233" (nx dial_page)). discriminate.
Defined.

(** C9. With a falsy second argument [v], whatever the first argument [a],
    [colorize] stores the string [a] as the accent colour of the manager and
    of every widget and redraws every widget; the entry of the aspect [a]
    itself is not touched, unless [a] is ["accent"]. *)
Theorem colorize_falsy_color a v m :
  truthy v = false →
  colors (colorize a v m) = <["accent" := VStr a]> (colors m) ∧
  (∀ k, widgets (colorize a v m) !! k
        = (λ w, mkWidget (canvasID w) (<["accent" := VStr a]> (wcolors w)) (wprops w)
                  (inits w) (S (draws w))) <$> widgets m !! k) ∧
  (a ≠ "accent" → colors (colorize a v m) !! a = colors m !! a) ∧
  (a ≠ "accent" → ∀ k, (λ w, wcolors w !! a) <$> widgets (colorize a v m) !! k
                       = (λ w, wcolors w !! a) <$> widgets m !! k).
Proof.
  intros Hv. rewrite colorize_falsy by done. simpl.
  split; [done|]. split; [intros k; by rewrite lookup_fmap|]. split.
  - intros Ha. by rewrite lookup_insert_ne.
  - intros Ha k. rewrite lookup_fmap. destruct (widgets m !! k) as [w|]; [|done].
    simpl. by rewrite lookup_insert_ne.
Qed.

Lemma colorize_falsy_color_witness :
  colors (colorize "border" (VStr "") (nx dial_page))
    = <["accent" := VStr "border"]> (colors (nx dial_page)) ∧
  (wcolors <$> widgets (colorize "border" (VStr "") (nx dial_page)) !! "dial1")
    = Some (<["accent" := VStr "border"]> default_colors) ∧
  colors (colorize "border" (VStr "") (nx dial_page)) !! "border" = Some (VStr "#bbb").
Proof.
  destruct (colorize_falsy_color "border" (VStr "") (nx dial_page) eq_refl)
    as (Hshared & Hwidgets & Haspect & _).
  split; [exact Hshared|]. split.
  - rewrite Hwidgets. reflexivity.
  - rewrite Haspect by discriminate. reflexivity.
Defined.

(** ** C10: setThrottlePeriod touches the throttle period only *)

Lemma colorize_draws aspect newCol m k :
  draws <$> widgets (colorize aspect newCol m) !! k = S ∘ draws <$> widgets m !! k.
Proof.
  unfold colorize. destruct (truthy newCol); simpl;
    rewrite lookup_fmap; by destruct (widgets m !! k).
Qed.

Lemma setLabels_draws onoff m m' k :
  setLabels onoff m = Some m' →
  draws <$> widgets m' !! k = S ∘ draws <$> widgets m !! k.
Proof.
  unfold setLabels. destruct (loose_eq_on onoff); [|done]. intros [= <-]. simpl.
  rewrite lookup_fmap. by destruct (widgets m !! k).
Qed.

(** C10. [setThrottlePeriod] sets the throttle period of the manager and of
    every registered widget and nothing else: the identifiers in the registry,
    the ledger, the callbacks, the shared and the widgets' colours and every
    other property stay, and no widget is redrawn (its count of [draw] calls
    is the same), whereas [colorize], [setLabels] and a [setProp] that
    broadcasts redraw every widget. *)
Theorem setThrottlePeriod_frame newThrottle m :
  props (setThrottlePeriod newThrottle m) = <["throttlePeriod" := newThrottle]> (props m) ∧
  elemTypeArr (setThrottlePeriod newThrottle m) = elemTypeArr m ∧
  aniItems (setThrottlePeriod newThrottle m) = aniItems m ∧
  colors (setThrottlePeriod newThrottle m) = colors m ∧
  dom (widgets (setThrottlePeriod newThrottle m)) = dom (widgets m) ∧
  (∀ k, widgets (setThrottlePeriod newThrottle m) !! k
        = (λ w, mkWidget (canvasID w) (wcolors w)
                  (<["throttlePeriod" := newThrottle]> (wprops w)) (inits w) (draws w))
          <$> widgets m !! k) ∧
  (∀ k, draws <$> widgets (setThrottlePeriod newThrottle m) !! k
        = draws <$> widgets m !! k) ∧
  (∀ aspect newCol k, draws <$> widgets (colorize aspect newCol m) !! k
        = S ∘ draws <$> widgets m !! k) ∧
  (∀ onoff k,
      match setLabels onoff m with
      | Some m' => draws <$> widgets m' !! k = S ∘ draws <$> widgets m !! k
      | None => True
      end) ∧
  (∀ prop val k,
      match setProp prop val m with
      | Some m' =>
          if truthy_str prop && truthy val
          then draws <$> widgets m' !! k = S ∘ draws <$> widgets m !! k
          else m' = m
      | None => True
      end).
Proof.
  unfold setThrottlePeriod. simpl. rewrite lookup_insert_eq. simpl.
  repeat split; try done.
  - apply dom_fmap_L.
  - intros k. by rewrite lookup_fmap.
  - intros k. rewrite lookup_fmap. by destruct (widgets m !! k).
  - intros aspect newCol k. apply colorize_draws.
  - intros onoff k. destruct (setLabels onoff m) as [m'|] eqn:H; [|done].
    by eapply setLabels_draws.
  - intros prop val k. unfold setProp.
    destruct (truthy_str prop && truthy val); [|done].
    case_bool_decide; [done|]. simpl.
    rewrite lookup_fmap. by destruct (widgets m !! k).
Qed.

(** ** C8: the animation tick *)

Section PulseFacts.

Variable call : nat → page → page * completion unit.

(** The callbacks leave the list of callbacks as it is. *)
Hypothesis call_keeps_aniItems :
  ∀ fn q, aniItems (nx (call fn q).1) = aniItems (nx q).

(** With such callbacks the loop from index [i] on is the walk through the
    rest of the list. *)
Lemma pulse_from_invoke_in_order fuel : ∀ i p,
  length (aniItems (nx p)) - i < fuel →
  pulse_from call fuel i p = Some (invoke_in_order call (drop i (aniItems (nx p))) p).
Proof.
  induction fuel as [|fuel IH]; intros i p Hfuel; simpl.
  - lia.
  - destruct (aniItems (nx p) !! i) as [fn|] eqn:Hi.
    + rewrite (drop_S _ _ _ Hi). simpl.
      pose proof (call_keeps_aniItems fn p) as Hkeep.
      pose proof (lookup_lt_Some _ _ _ Hi) as Hlt.
      destruct (call fn p) as [p1 [[]|e]]; [|done]. simpl in Hkeep.
      rewrite IH by (rewrite Hkeep; lia). rewrite Hkeep.
      by destruct (invoke_in_order call (drop (S i) (aniItems (nx p))) p1) as [[tr p2] c].
    + apply lookup_ge_None in Hi. by rewrite drop_ge.
Qed.


End PulseFacts.


Lemma sample_call_keeps_aniItems fn q :
  aniItems (nx (sample_call fn q).1) = aniItems (nx q).
Proof. unfold sample_call. by destruct (Nat.eqb fn 2). Qed.


(** Three callbacks, the second of which throws: the first two are invoked,
    the third is not, and the exception reaches the caller. *)
Example pulse_stops_at_throw :
  pulse sample_call 4 (set_nx (λ _, three_callbacks) new_page)
    = Some ([1; 2], console_log "1" (set_nx (λ _, three_callbacks) new_page),
            Throw (Thrown (VStr "boom"))).
Proof. reflexivity. Qed.

(** The loop reads the list again at every turn: a callback that takes
    itself off the list while it runs (reference 7, through [removeAni])
    ends the tick before the callbacks after it have run. *)
Example pulse_list_changed_in_tick :
  pulse self_removing_call 4 (set_nx (set_aniItems (λ _, [7; 8])) new_page)
    = Some ([7], set_nx (set_aniItems (λ _, [])) new_page, Normal ()).
Proof. reflexivity. Qed.

(** * Further properties of the manager *)

(** ** transform: outcomes, identifiers, registry *)

Lemma resolve_type_none canvas type :
  resolve_type canvas type = None ↔
  (type = None ∨ type = Some "") ∧ (nx_attr canvas = None ∨ nx_attr canvas = Some "").
Proof.
  unfold resolve_type. split.
  - intros H. destruct type as [ty|].
    + destruct (truthy_str ty) eqn:Hty.
      * by rewrite Hty in H.
      * apply not_true_iff_false in Hty. rewrite truthy_str_true in Hty.
        apply dec_stable in Hty as ->. split; [by right|].
        destruct (nx_attr canvas) as [a|]; [|by left]. right.
        destruct (truthy_str a) eqn:Ha; [done|].
        apply not_true_iff_false in Ha. rewrite truthy_str_true in Ha.
        by apply dec_stable in Ha as ->.
    + split; [by left|].
      destruct (nx_attr canvas) as [a|]; [|by left]. right.
      destruct (truthy_str a) eqn:Ha; [done|].
      apply not_true_iff_false in Ha. rewrite truthy_str_true in Ha.
      by apply dec_stable in Ha as ->.
  - intros [[-> | ->] [-> | ->]]; done.
Qed.

Lemma assign_id_nonempty t n canvas : t ≠ "" → id (assign_id t n canvas) ≠ "".
Proof.
  intros Ht. unfold assign_id. destruct (truthy_str (id canvas)) eqn:Hid.
  - by apply truthy_str_true.
  - simpl. by apply append_nonempty.
Qed.

Lemma assign_id_nx_attr t n canvas : nx_attr (assign_id t n canvas) = nx_attr canvas.
Proof. unfold assign_id. by destruct (truthy_str (id canvas)). Qed.

Lemma register_widgets newObj p :
  widgets (nx (register newObj p)) = <[canvasID newObj := init newObj]> (widgets (nx p)) ∧
  elemTypeArr (nx (register newObj p)) = elemTypeArr (nx p) ∧
  console (register newObj p) = console p.
Proof. unfold register. repeat case_match; done. Qed.

(** X1. A call for which no type can be found, neither in the argument nor
    in the [nx] attribute of the surface (each missing or empty), returns
    nothing and changes neither the page nor the surface. *)
Theorem transform_without_type catalog canvas type p :
  type = None ∨ type = Some "" →
  nx_attr canvas = None ∨ nx_attr canvas = Some "" →
  transform catalog canvas type p = (p, canvas, Normal None).
Proof.
  intros Hty Hattr. unfold transform.
  rewrite (proj2 (resolve_type_none canvas type)) by done.
  by destruct (already_registered _ _).
Qed.

Lemma transform_without_type_witness :
  transform sample_catalog (mkCanvas "knob" (Some "")) (Some "") dial_page
    = (dial_page, mkCanvas "knob" (Some ""), Normal None).
Proof.
  apply (transform_without_type sample_catalog (mkCanvas "knob" (Some "")) (Some "") dial_page).
  - by right.
  - by right.
Defined.

(** X2. What a call of [transform] that returns has done.  When it returns
    nothing, page and surface are as before.  When it returns a widget, the
    surface has a non-empty identifier, the registry holds that widget under
    the widget's identifier, [init] has been called on it, and the ledger has
    one more entry.  (Calls that end in an exception are not covered.) *)
Theorem transform_returned catalog canvas type p p1 canvas1 r :
  transform catalog canvas type p = (p1, canvas1, Normal r) →
  match r with
  | None => p1 = p ∧ canvas1 = canvas
  | Some w =>
      id canvas1 ≠ "" ∧
      widgets (nx p1) !! canvasID w = Some w ∧
      1 ≤ inits w ∧
      length (elemTypeArr (nx p1)) = S (length (elemTypeArr (nx p)))
  end.
Proof.
  unfold transform. destruct (already_registered _ _); [by intros [= <- <- <-]|].
  destruct (resolve_type canvas type) as [t|] eqn:Hty; [|by intros [= <- <- <-]].
  destruct (construct _ _ _ _) as [newObj|] eqn:Hnew; [|done].
  intros [= <- <- <-].
  split; [apply assign_id_nonempty; by eapply resolve_type_nonempty|].
  destruct (register_widgets newObj
              (set_nx (set_elemTypeArr (λ arr, arr ++ [t])) p)) as (-> & -> & _).
  simpl. rewrite lookup_insert_eq, length_app. simpl. repeat split; [lia..].
Qed.

Lemma transform_returned_witness :
  id (mkCanvas "dial2" (Some "dial")) ≠ "" ∧
  widgets (nx (transform sample_catalog (mkCanvas "" (Some "dial")) None dial_page).1.1)
    !! canvasID (init (mkWidget "dial2" default_colors
         (<["throttlePeriod" := VNum 20]> (<["showLabels" := VBool false]> ∅)) 0 0))
    = Some (init (mkWidget "dial2" default_colors
         (<["throttlePeriod" := VNum 20]> (<["showLabels" := VBool false]> ∅)) 0 0)) ∧
  1 ≤ inits (init (mkWidget "dial2" default_colors
         (<["throttlePeriod" := VNum 20]> (<["showLabels" := VBool false]> ∅)) 0 0)) ∧
  length (elemTypeArr (nx (transform sample_catalog (mkCanvas "" (Some "dial")) None
                             dial_page).1.1))
    = S (length (elemTypeArr (nx dial_page))).
Proof.
  apply (transform_returned sample_catalog (mkCanvas "" (Some "dial")) None dial_page
           (transform sample_catalog (mkCanvas "" (Some "dial")) None dial_page).1.1
           (mkCanvas "dial2" (Some "dial"))
           (Some (init (mkWidget "dial2" default_colors
              (<["throttlePeriod" := VNum 20]> (<["showLabels" := VBool false]> ∅)) 0 0)))).
  reflexivity.
Defined.

Lemma transform_canvas_after catalog canvas type p :
  (id canvas ≠ "" → (transform catalog canvas type p).1.2 = canvas) ∧
  (id canvas = "" →
   id (transform catalog canvas type p).1.2
     = if already_registered "" (widgets (nx p)) then ""
       else match resolve_type canvas type with
            | Some t => t +:+ pretty (count_type t (elemTypeArr (nx p)) + 1)
            | None => ""
            end) ∧
  nx_attr (transform catalog canvas type p).1.2 = nx_attr canvas.
Proof.
  unfold transform. repeat split.
  - intros Hid. destruct (already_registered _ _); [done|].
    destruct (resolve_type canvas type) as [t|]; [|done].
    destruct (construct _ _ _ _); simpl; by apply assign_id_named.
  - intros Hid. rewrite Hid. destruct (already_registered _ _); [done|].
    destruct (resolve_type canvas type) as [t|]; [|done].
    destruct (construct _ _ _ _); simpl; by apply assign_id_unnamed.
  - destruct (already_registered _ _); [done|].
    destruct (resolve_type canvas type) as [t|]; [|done].
    destruct (construct _ _ _ _); simpl; apply assign_id_nx_attr.
Qed.

(** X3. A surface that comes with an identifier keeps it, whatever the call
    does; a surface without one gets the type followed by the number of
    ledger entries of that type plus one when the call resolves a type [t]
    past the guard, and stays without one otherwise.  The [nx] attribute is
    never written. *)
Theorem transform_surface_identifier catalog canvas type p :
  (id canvas ≠ "" → (transform catalog canvas type p).1.2 = canvas) ∧
  (id canvas = "" →
   id (transform catalog canvas type p).1.2
     = if already_registered "" (widgets (nx p)) then ""
       else match resolve_type canvas type with
            | Some t => t +:+ pretty (count_type t (elemTypeArr (nx p)) + 1)
            | None => ""
            end) ∧
  nx_attr (transform catalog canvas type p).1.2 = nx_attr canvas.
Proof. apply transform_canvas_after. Qed.

Lemma transform_surface_identifier_witness :
  (transform sample_catalog (mkCanvas "volume" (Some "slider")) None dial_page).1.2
    = mkCanvas "volume" (Some "slider") ∧
  id (transform sample_catalog (mkCanvas "" (Some "dial")) None dial_page).1.2 = "dial2".
Proof.
  split.
  - apply (proj1 (transform_surface_identifier sample_catalog
                    (mkCanvas "volume" (Some "slider")) None dial_page)).
    discriminate.
  - rewrite (proj1 (proj2 (transform_surface_identifier sample_catalog
                             (mkCanvas "" (Some "dial")) None dial_page)) eq_refl).
    reflexivity.
Defined.

(** The registry after a call: as before, or with the constructed widget
    stored under the widget's identifier. *)
Lemma transform_widgets catalog canvas type p :
  widgets (nx (transform catalog canvas type p).1.1) = widgets (nx p) ∨
  ∃ newObj, (transform catalog canvas type p).2 = Normal (Some (init newObj)) ∧
    widgets (nx (transform catalog canvas type p).1.1)
      = <[canvasID newObj := init newObj]> (widgets (nx p)).
Proof.
  unfold transform. destruct (already_registered _ _); [by left|].
  destruct (resolve_type canvas type) as [t|]; [|by left].
  destruct (construct _ _ _ _) as [newObj|]; [|by left].
  right. exists newObj. split; [done|]. simpl.
  by rewrite (proj1 (register_widgets newObj _)).
Qed.

Lemma keyed_by_id_fmap (f : Widget → Widget) (ws : gmap string Widget) :
  (∀ w, canvasID (f w) = canvasID w) → keyed_by_id ws → keyed_by_id (f <$> ws).
Proof.
  intros Hf Hws k w. rewrite lookup_fmap.
  destruct (ws !! k) as [w0|] eqn:Hk; [|done]. intros [= <-].
  rewrite Hf. by apply (Hws k).
Qed.

(** X4. Every widget of the registry is stored under its own identifier, and
    this stays so after a call of [transform] that returns, after [colorize],
    [setThrottlePeriod] and [setLabels], and after [setProp] on a name that is
    not one of [structural] (the members of the manager and of the widgets,
    [canvasID] among them).  So no two widgets of the registry share an
    identifier. *)
Theorem registry_keyed_by_id catalog p :
  keyed_by_id (widgets (nx p)) →
  (∀ canvas type r, (transform catalog canvas type p).2 = Normal r →
                    keyed_by_id (widgets (nx (transform catalog canvas type p).1.1))) ∧
  (∀ aspect newCol, keyed_by_id (widgets (colorize aspect newCol (nx p)))) ∧
  (∀ newThrottle, keyed_by_id (widgets (setThrottlePeriod newThrottle (nx p)))) ∧
  (∀ onoff m', setLabels onoff (nx p) = Some m' → keyed_by_id (widgets m')) ∧
  (∀ prop val, prop ∉ structural →
               ∃ m', setProp prop val (nx p) = Some m' ∧ keyed_by_id (widgets m')) ∧
  (∀ k1 k2 w1 w2, widgets (nx p) !! k1 = Some w1 → widgets (nx p) !! k2 = Some w2 →
                  canvasID w1 = canvasID w2 → k1 = k2 ∧ w1 = w2).
Proof.
  intros Hkeyed. split; [|split; [|split; [|split; [|split]]]].
  - intros canvas type r _.
    destruct (transform_widgets catalog canvas type p) as [-> | (newObj & _ & ->)]; [done|].
    by apply map_Forall_insert_2.
  - intros aspect newCol. unfold colorize. destruct (truthy newCol); simpl;
      by apply keyed_by_id_fmap.
  - intros newThrottle. unfold setThrottlePeriod. simpl. by apply keyed_by_id_fmap.
  - intros onoff m'. unfold setLabels. destruct (loose_eq_on onoff); [|done].
    intros [= <-]. simpl. by apply keyed_by_id_fmap.
  - intros prop val Hplain. unfold setProp.
    rewrite (bool_decide_eq_false_2 _ Hplain).
    destruct (truthy_str prop && truthy val); eexists; (split; [reflexivity|]); [|done].
    simpl. by apply keyed_by_id_fmap.
  - intros k1 k2 w1 w2 Hk1 Hk2 Hsame.
    assert (k1 = k2) as <-
      by (rewrite <- (Hkeyed k1 w1 Hk1), <- (Hkeyed k2 w2 Hk2); done).
    split; [done | congruence].
Qed.

Lemma dial_page_keyed_by_id : keyed_by_id (widgets (nx dial_page)).
Proof.
  intros k w Hk.
  destruct (decide (k = "dial1")) as [-> | Hne].
  - vm_compute in Hk. by injection Hk as <-.
  - assert (widgets (nx dial_page) = <["dial1" := init (mkWidget "dial1" default_colors
      (<["throttlePeriod" := VNum 20]> (<["showLabels" := VBool false]> ∅)) 0 0)]> ∅) as Heq
      by (by vm_compute).
    rewrite Heq, lookup_insert_ne, lookup_empty in Hk; done.
Qed.

Lemma registry_keyed_by_id_witness :
  keyed_by_id (widgets (nx (transform sample_catalog (mkCanvas "" (Some "toggle")) None
                              dial_page).1.1)) ∧
  keyed_by_id (widgets (colorize "fill" (VStr "#222") (nx dial_page))).
Proof.
  pose proof (registry_keyed_by_id sample_catalog dial_page dial_page_keyed_by_id)
    as (Htransform & Hcolorize & _).
  split; [|apply Hcolorize].
  apply (Htransform (mkCanvas "" (Some "toggle")) None
           (Some (init (mkWidget "toggle1" default_colors
              (<["throttlePeriod" := VNum 20]> (<["showLabels" := VBool false]> ∅)) 0 0)))).
  reflexivity.
Defined.

(** X5. Widgets stay registered: after [transform] every identifier
    registered before is still registered and at most one has been added, and
    [colorize], [setLabels], [removeAni] and [setProp] on a name that is not
    one of [structural] leave the set of registered identifiers as it is. *)
Theorem registry_never_shrinks catalog p :
  (∀ canvas type,
      dom (widgets (nx p)) ⊆ dom (widgets (nx (transform catalog canvas type p).1.1)) ∧
      size (widgets (nx (transform catalog canvas type p).1.1)) ≤ S (size (widgets (nx p)))) ∧
  (∀ aspect newCol, dom (widgets (colorize aspect newCol (nx p))) = dom (widgets (nx p))) ∧
  (∀ onoff, match setLabels onoff (nx p) with
            | Some m' => dom (widgets m') = dom (widgets (nx p))
            | None => True
            end) ∧
  (∀ prop val, prop ∉ structural →
               ∃ m', setProp prop val (nx p) = Some m' ∧
                     dom (widgets m') = dom (widgets (nx p))) ∧
  (∀ fn, widgets (removeAni fn (nx p)) = widgets (nx p)).
Proof.
  split; [|split; [|split; [|split]]].
  - intros canvas type. split.
    + destruct (transform_widgets catalog canvas type p) as [-> | (newObj & _ & ->)]; [done|].
      rewrite dom_insert_L. apply union_subseteq_r.
    + destruct (transform_widgets catalog canvas type p) as [-> | (newObj & _ & ->)]; [lia|].
      destruct (widgets (nx p) !! canvasID newObj) as [old|] eqn:Hold.
      * rewrite map_size_insert_Some by done. lia.
      * rewrite map_size_insert_None by done. lia.
  - intros aspect newCol. unfold colorize. destruct (truthy newCol); apply dom_fmap_L.
  - intros onoff. unfold setLabels. destruct (loose_eq_on onoff); [|done]. apply dom_fmap_L.
  - intros prop val Hplain. unfold setProp.
    rewrite (bool_decide_eq_false_2 _ Hplain).
    destruct (truthy_str prop && truthy val); eexists; (split; [reflexivity|]); [|done].
    apply dom_fmap_L.
  - done.
Qed.

(** X6. The guard looks at the identifier the surface has when the call
    starts.  A surface without identifier passes it, and when the identifier
    then made from the ledger is already a key of the registry (a widget was
    given that name by hand), the new widget takes the place of the old one:
    the set of registered identifiers is the same, and the widget stored
    under the identifier is the new one. *)
Theorem transform_overwrites_colliding_id catalog canvas type p t old ctor w :
  id canvas = "" →
  already_registered "" (widgets (nx p)) = false →
  resolve_type canvas type = Some t →
  widgets (nx p) !! (t +:+ pretty (count_type t (elemTypeArr (nx p)) + 1)) = Some old →
  catalog t = Some ctor →
  ctor (t +:+ pretty (count_type t (elemTypeArr (nx p)) + 1))
       (set_elemTypeArr (λ arr, arr ++ [t]) (nx p)) = Some w →
  canvasID w = t +:+ pretty (count_type t (elemTypeArr (nx p)) + 1) →
  ∃ p1,
    transform catalog canvas type p
      = (p1, set_id (t +:+ pretty (count_type t (elemTypeArr (nx p)) + 1)) canvas,
         Normal (Some (init w))) ∧
    widgets (nx p1)
      = <[t +:+ pretty (count_type t (elemTypeArr (nx p)) + 1) := init w]> (widgets (nx p)) ∧
    dom (widgets (nx p1)) = dom (widgets (nx p)) ∧
    size (widgets (nx p1)) = size (widgets (nx p)).
Proof.
  intros Hid Hguard Hty Hold Hcat Hctor Hw.
  unfold transform. rewrite Hid, Hguard, Hty. unfold construct. rewrite Hcat.
  unfold assign_id. rewrite Hid. simpl. rewrite Hctor.
  eexists. split; [reflexivity|].
  rewrite (proj1 (register_widgets w _)). simpl. rewrite Hw. split; [done|]. split.
  - rewrite dom_insert_L. apply elem_of_dom_2 in Hold.
    by apply subseteq_union_1_L, singleton_subseteq_l.
  - by rewrite map_size_insert_Some.
Qed.

Lemma transform_overwrites_colliding_id_witness :
  ∃ p1,
    transform sample_catalog (mkCanvas "" (Some "dial")) None named_toggle_page
      = (p1, set_id ("dial" +:+ pretty (count_type "dial" (elemTypeArr (nx named_toggle_page)) + 1))
               (mkCanvas "" (Some "dial")),
         Normal (Some (init (mkWidget "dial1" default_colors
           (<["throttlePeriod" := VNum 20]> (<["showLabels" := VBool false]> ∅)) 0 0)))) ∧
    widgets (nx p1)
      = <["dial" +:+ pretty (count_type "dial" (elemTypeArr (nx named_toggle_page)) + 1)
            := init (mkWidget "dial1" default_colors
                 (<["throttlePeriod" := VNum 20]> (<["showLabels" := VBool false]> ∅)) 0 0)]>
          (widgets (nx named_toggle_page)) ∧
    dom (widgets (nx p1)) = dom (widgets (nx named_toggle_page)) ∧
    size (widgets (nx p1)) = size (widgets (nx named_toggle_page)).
Proof.
  apply (transform_overwrites_colliding_id sample_catalog (mkCanvas "" (Some "dial")) None
           named_toggle_page "dial"
           (init (mkWidget "dial1" default_colors
              (<["throttlePeriod" := VNum 20]> (<["showLabels" := VBool false]> ∅)) 0 0))
           widget_ctor).
  - reflexivity.
  - by vm_compute.
  - reflexivity.
  - by vm_compute.
  - reflexivity.
  - reflexivity.
  - reflexivity.
Defined.

Lemma count_type_other t t' arr :
  t ≠ t' → count_type t' (arr ++ [t]) = count_type t' arr.
Proof.
  intros Hne. rewrite count_type_snoc.
  destruct (String.eqb_spec t t'); [done | lia].
Qed.

(** The ledger after a call: as before, or with the resolved type appended. *)
Lemma transform_ledger catalog canvas type p :
  elemTypeArr (nx (transform catalog canvas type p).1.1) = elemTypeArr (nx p) ∨
  ∃ t, resolve_type canvas type = Some t ∧
       elemTypeArr (nx (transform catalog canvas type p).1.1) = elemTypeArr (nx p) ++ [t].
Proof.
  unfold transform. destruct (already_registered _ _); [by left|].
  destruct (resolve_type canvas type) as [t|]; [|by left].
  right. exists t. split; [done|].
  destruct (construct _ _ _ _) as [newObj|]; simpl; [|done].
  by rewrite (proj1 (proj2 (register_widgets newObj _))).
Qed.

(** X7. The ledger only grows: a call of [transform] leaves the entries it
    finds where they are and adds at most one at the end, so the count of
    every type other than the resolved one, and with it the next number of
    that type, is unchanged; [colorize], [setLabels], [removeAni] and
    [setProp] on a name that is not one of [structural] do not touch the
    ledger. *)
Theorem ledger_only_grows catalog p :
  (∀ canvas type,
      elemTypeArr (nx p) `prefix_of` elemTypeArr (nx (transform catalog canvas type p).1.1) ∧
      (∀ t', resolve_type canvas type ≠ Some t' →
             count_type t' (elemTypeArr (nx (transform catalog canvas type p).1.1))
               = count_type t' (elemTypeArr (nx p)))) ∧
  (∀ aspect newCol, elemTypeArr (colorize aspect newCol (nx p)) = elemTypeArr (nx p)) ∧
  (∀ onoff, match setLabels onoff (nx p) with
            | Some m' => elemTypeArr m' = elemTypeArr (nx p)
            | None => True
            end) ∧
  (∀ prop val, prop ∉ structural →
               ∃ m', setProp prop val (nx p) = Some m' ∧
                     elemTypeArr m' = elemTypeArr (nx p)) ∧
  (∀ fn, elemTypeArr (removeAni fn (nx p)) = elemTypeArr (nx p)).
Proof.
  split; [|split; [|split; [|split]]].
  - intros canvas type.
    destruct (transform_ledger catalog canvas type p) as [-> | (t & Hty & ->)].
    + split; [done|]. done.
    + split; [by apply prefix_app_r|].
      intros t' Hne. apply count_type_other. congruence.
  - intros aspect newCol. unfold colorize. by destruct (truthy newCol).
  - intros onoff. unfold setLabels. by destruct (loose_eq_on onoff).
  - intros prop val Hplain. unfold setProp.
    rewrite (bool_decide_eq_false_2 _ Hplain).
    destruct (truthy_str prop && truthy val); eexists; (split; [reflexivity|]); done.
  - done.
Qed.



(** ** add *)

Lemma new_canvas_named type a n :
  args_name a = Some n → n ≠ "" → id (el_canvas (new_canvas type (Some a))) = n.
Proof. intros Hn Hne%truthy_str_true. simpl. by rewrite Hn, Hne. Qed.

Lemma new_canvas_unnamed type args :
  (args = None ∨ ∃ a, args = Some a ∧ (args_name a = None ∨ args_name a = Some "")) →
  id (el_canvas (new_canvas type args)) = "".
Proof. intros [-> | (a & -> & [Hn | Hn])]; simpl; by rewrite ?Hn. Qed.

Lemma new_canvas_nx_attr type args : nx_attr (el_canvas (new_canvas type args)) = Some type.
Proof. by destruct args. Qed.

(** X9. [add] with a name that a registered widget already has: the canvas is
    created, given that name as identifier and appended to the document, and
    only then does [transform] find the name in the registry, so the call
    returns nothing and the page is unchanged, with one more canvas in the
    document that no widget belongs to. *)
Theorem add_registered_name catalog getElementById type a n p :
  type ≠ "" →
  args_name a = Some n → n ≠ "" →
  (∃ k w, widgets (nx p) !! k = Some w ∧ canvasID w = n) →
  add catalog getElementById type (Some a) p
    = (p, Some (resolve_parent getElementById (Some a), new_canvas type (Some a)), Normal None) ∧
  id (el_canvas (new_canvas type (Some a))) = n.
Proof.
  intros Hty%truthy_str_true Hn Hne Hreg.
  pose proof (new_canvas_named type a n Hn Hne) as Hid.
  split; [|done]. unfold add. rewrite Hty.
  rewrite transform_guard by (by rewrite Hid).
  by destruct (new_canvas type (Some a)).
Qed.

Lemma add_registered_name_witness :
  add sample_catalog panel_document "toggle"
      (Some (mkSettings (VNum 10) VUndefined VUndefined VUndefined (Some "dial1") None))
      dial_page
    = (dial_page,
       Some (resolve_parent panel_document
               (Some (mkSettings (VNum 10) VUndefined VUndefined VUndefined (Some "dial1") None)),
             new_canvas "toggle"
               (Some (mkSettings (VNum 10) VUndefined VUndefined VUndefined (Some "dial1") None))),
       Normal None) ∧
  id (el_canvas (new_canvas "toggle"
        (Some (mkSettings (VNum 10) VUndefined VUndefined VUndefined (Some "dial1") None))))
    = "dial1".
Proof.
  apply (add_registered_name sample_catalog panel_document "toggle"
           (mkSettings (VNum 10) VUndefined VUndefined VUndefined (Some "dial1") None)
           "dial1" dial_page).
  - discriminate.
  - reflexivity.
  - discriminate.
  - exists "dial1", (init (mkWidget "dial1" default_colors
      (<["throttlePeriod" := VNum 20]> (<["showLabels" := VBool false]> ∅)) 0 0)).
    split; [vm_compute; reflexivity | reflexivity].
Defined.

(** X10. What [add] creates.  With an empty type it creates nothing, returns
    nothing and leaves the page alone.  With a type it appends one canvas that
    carries the type as its [nx] attribute and returns what [transform]
    returns for it; past the guard the identifier of the canvas is the name
    of the settings when there is a non-empty one, and otherwise the type
    followed by the number of ledger entries of that type plus one. *)
Theorem add_surface catalog getElementById type args p :
  (type = "" → add catalog getElementById type args p = (p, None, Normal None)) ∧
  (type ≠ "" →
   ∃ el, (add catalog getElementById type args p).1.2
           = Some (resolve_parent getElementById args, el) ∧
     nx_attr (el_canvas el) = Some type ∧
     (add catalog getElementById type args p).2
       = (transform catalog (el_canvas (new_canvas type args)) None p).2 ∧
     (add catalog getElementById type args p).1.1
       = (transform catalog (el_canvas (new_canvas type args)) None p).1.1 ∧
     (∀ a n, args = Some a → args_name a = Some n → n ≠ "" → id (el_canvas el) = n) ∧
     ((args = None ∨ ∃ a, args = Some a ∧ (args_name a = None ∨ args_name a = Some "")) →
      already_registered "" (widgets (nx p)) = false →
      id (el_canvas el) = type +:+ pretty (count_type type (elemTypeArr (nx p)) + 1))).
Proof.
  split.
  - intros ->. reflexivity.
  - intros Hty. pose proof Hty as Htruthy%truthy_str_true.
    unfold add. rewrite Htruthy.
    pose proof (transform_canvas_after catalog (el_canvas (new_canvas type args)) None p)
      as (Hkeep & Hfresh & Hattr).
    destruct (transform catalog (el_canvas (new_canvas type args)) None p)
      as [[p1 canvas1] out] eqn:Htr. simpl in *.
    eexists. split; [reflexivity|]. simpl.
    split; [by rewrite Hattr, new_canvas_nx_attr|]. split; [done|]. split; [done|]. split.
    + intros a n -> Hn Hne. rewrite Hkeep.
      * by apply new_canvas_named.
      * by rewrite (new_canvas_named type a n).
    + intros Hunnamed Hguard.
      rewrite Hfresh by (by apply new_canvas_unnamed).
      rewrite Hguard. unfold resolve_type. rewrite new_canvas_nx_attr. by rewrite Htruthy.
Qed.

Lemma add_surface_witness :
  add sample_catalog panel_document ""
      (Some (mkSettings VUndefined VUndefined VUndefined VUndefined (Some "mainDial") None))
      dial_page = (dial_page, None, Normal None) ∧
  ∃ el, (add sample_catalog panel_document "dial" None dial_page).1.2
          = Some (resolve_parent panel_document None, el) ∧
        id (el_canvas el) = "dial" +:+ pretty (count_type "dial" (elemTypeArr (nx dial_page)) + 1).
Proof.
  split.
  - apply (proj1 (add_surface sample_catalog panel_document "" _ dial_page)). reflexivity.
  - destruct (proj2 (add_surface sample_catalog panel_document "dial" None dial_page))
      as (el & Hel & _ & _ & _ & _ & Hid); [discriminate|].
    exists el. split; [exact Hel|]. apply Hid; [by left | by vm_compute].
Defined.

(** X11. Settings that are falsy are not applied.  An offset [x] of 0 gives no
    [left] style, and the canvas is positioned absolutely only when the other
    offset is truthy; a width or height of 0 is not set.  A parent that cannot
    be found (an unknown identifier, the empty string, an empty jQuery
    collection) is replaced by the body of the document without an error. *)
Theorem add_falsy_settings catalog getElementById type a p :
  type ≠ "" →
  ∃ p1 parent el out,
    add catalog getElementById type (Some a) p = (p1, Some (parent, el), out) ∧
    (truthy (args_x a) = false →
       style_left el = None ∧
       (style_position el = Some "absolute" ↔ truthy (args_y a) = true)) ∧
    (truthy (args_y a) = false → style_top el = None) ∧
    (truthy (args_w a) = false → style_width el = None ∧ attr_width el = None) ∧
    (truthy (args_h a) = false → style_height el = None ∧ attr_height el = None) ∧
    ((∃ s, args_parent a = Some (ParentId s) ∧ (s = "" ∨ getElementById s = None)) ∨
     args_parent a = Some (ParentJQuery []) ∨ args_parent a = None →
     parent = Body).
Proof.
  intros Hty%truthy_str_true. unfold add. rewrite Hty.
  destruct (transform catalog (el_canvas (new_canvas type (Some a))) None p)
    as [[p1 canvas1] out].
  eexists _, _, _, _. split; [reflexivity|]. simpl. unfold when_truthy.
  split; [|split; [|split; [|split]]].
  - intros Hx. rewrite Hx. simpl. split; [done|].
    destruct (truthy (args_y a)); split; done.
  - by intros ->.
  - by intros ->.
  - by intros ->.
  - intros [(s & -> & [-> | Hs]) | [-> | ->]]; try done.
    destruct (truthy_str s); [by rewrite Hs | done].
Qed.

Lemma add_falsy_settings_witness :
  ∃ p1 parent el out,
    add sample_catalog panel_document "dial"
        (Some (mkSettings (VNum 0) (VNum 40) (VNum 0) (VNum 100) None (Some (ParentId "sidebar"))))
        new_page = (p1, Some (parent, el), out) ∧
    style_left el = None ∧ style_position el = Some "absolute" ∧
    style_width el = None ∧ parent = Body.
Proof.
  destruct (add_falsy_settings sample_catalog panel_document "dial"
              (mkSettings (VNum 0) (VNum 40) (VNum 0) (VNum 100) None (Some (ParentId "sidebar")))
              new_page ltac:(discriminate))
    as (p1 & parent & el & out & Hadd & Hx & _ & Hw & _ & Hparent).
  exists p1, parent, el, out. split; [exact Hadd|].
  destruct (Hx eq_refl) as [Hleft Hpos]. destruct (Hw eq_refl) as [Hwidth _].
  split; [exact Hleft|]. split; [by apply Hpos|]. split; [exact Hwidth|].
  apply Hparent. left. exists "sidebar". split; [reflexivity | by right].
Defined.

(** ** Broadcasts: what they set and how they compose *)

Lemma set_own_insert k v (o : gmap string Value) :
  k ≠ "__proto__" → set_own k v o = <[k := v]> o.
Proof. unfold set_own. intros Hk. by destruct (String.eqb_spec k "__proto__"). Qed.

(** X12. [colorize] with a truthy colour sets the entry of the aspect to that
    colour in the shared colours and in the colours of every widget, and
    redraws every widget once; the other aspects, the identifiers and the
    other properties of the widgets, and the rest of the manager are
    untouched.  (The aspect is any name but ["__proto__"].) *)
Theorem colorize_sets_aspect aspect newCol m :
  truthy newCol = true → aspect ≠ "__proto__" →
  colors (colorize aspect newCol m) = <[aspect := newCol]> (colors m) ∧
  (∀ k, widgets (colorize aspect newCol m) !! k
        = (λ w, mkWidget (canvasID w) (<[aspect := newCol]> (wcolors w)) (wprops w)
                  (inits w) (S (draws w))) <$> widgets m !! k) ∧
  props (colorize aspect newCol m) = props m ∧
  elemTypeArr (colorize aspect newCol m) = elemTypeArr m ∧
  aniItems (colorize aspect newCol m) = aniItems m.
Proof.
  intros Hcol Haspect. rewrite colorize_truthy by done. simpl.
  rewrite set_own_insert by done. repeat split.
  intros k. rewrite lookup_fmap. destruct (widgets m !! k) as [w|]; [|done].
  simpl. unfold draw, set_wcolors. simpl. by rewrite set_own_insert.
Qed.

Lemma colorize_sets_aspect_witness :
  colors (colorize "border" (VStr "#000000") (nx dial_page)) !! "border"
    = Some (VStr "#000000") ∧
  colors (colorize "border" (VStr "#000000") (nx dial_page)) !! "fill" = Some (VStr "#eee") ∧
  (draws <$> widgets (colorize "border" (VStr "#000000") (nx dial_page)) !! "dial1") = Some 1.
Proof.
  destruct (colorize_sets_aspect "border" (VStr "#000000") (nx dial_page) eq_refl
              ltac:(discriminate)) as (Hshared & Hwidgets & _).
  rewrite Hshared, Hwidgets. repeat split; reflexivity.
Defined.

(** X13. Recolouring two different aspects gives the same manager in either
    order: same shared colours, same colours of every widget, and two redraws
    of every widget. *)
Theorem colorize_aspects_commute a c b d m :
  truthy c = true → truthy d = true → a ≠ b →
  colorize a c (colorize b d m) = colorize b d (colorize a c m).
Proof.
  intros Hc Hd Hab. rewrite !colorize_truthy by done.
  assert (∀ o : gmap string Value, set_own a c (set_own b d o) = set_own b d (set_own a c o))
    as Hswap.
  { intros o. unfold set_own.
    destruct (String.eqb a "__proto__"), (String.eqb b "__proto__"); try done.
    by apply insert_insert_ne. }
  unfold set_widgets, set_colors. simpl. f_equal; [|apply Hswap].
  rewrite <- !map_fmap_compose. apply map_eq. intros k. rewrite !lookup_fmap.
  destruct (widgets m !! k) as [w|]; [|done]. simpl.
  unfold draw, set_wcolors. simpl. by rewrite Hswap.
Qed.

Lemma colorize_aspects_commute_witness :
  colorize "fill" (VStr "#111") (colorize "border" (VStr "#222") (nx dial_page))
    = colorize "border" (VStr "#222") (colorize "fill" (VStr "#111") (nx dial_page)).
Proof.
  apply (colorize_aspects_commute "fill" (VStr "#111") "border" (VStr "#222") (nx dial_page));
    [reflexivity | reflexivity | discriminate].
Defined.

(** X14. [setLabels] switches the labels on for the string ["on"] and off for
    everything else it is given: the boolean [true], which the documentation
    of the method asks for, switches them off like [false]. *)
Theorem setLabels_only_on m :
  (∃ m', setLabels (VStr "on") m = Some m' ∧ props m' !! "showLabels" = Some (VBool true)) ∧
  (∀ onoff m', setLabels onoff m = Some m' → onoff ≠ VStr "on" →
               props m' !! "showLabels" = Some (VBool false)) ∧
  (∃ m', setLabels (VBool true) m = Some m' ∧ setLabels (VBool false) m = Some m' ∧
         props m' !! "showLabels" = Some (VBool false)).
Proof.
  split; [|split].
  - eexists. split; [reflexivity|]. simpl. by rewrite lookup_insert_eq.
  - intros onoff m' Hset Hne. unfold setLabels in Hset.
    destruct onoff as [| |b|z| |s|r]; simpl in Hset; try done;
      injection Hset as <-; simpl; rewrite lookup_insert_eq; try done.
    destruct (String.eqb_spec s "on") as [->|]; done.
  - eexists. split; [reflexivity|]. split; [reflexivity|]. simpl. by rewrite lookup_insert_eq.
Qed.

(** X15. Two calls of [setLabels] in a row leave the label flag that the
    second call sets and redraw every widget twice, whatever the first call
    was given. *)
Theorem setLabels_twice first second m m1 m2 :
  setLabels first m = Some m1 →
  setLabels second m1 = Some m2 →
  (∃ m', setLabels second m = Some m' ∧ props m2 = props m') ∧
  (∀ k, draws <$> widgets m2 !! k = S ∘ S ∘ draws <$> widgets m !! k) ∧
  colors m2 = colors m ∧ elemTypeArr m2 = elemTypeArr m.
Proof.
  unfold setLabels. intros H1 H2.
  destruct (loose_eq_on first) as [b1|]; [|done]. injection H1 as <-.
  destruct (loose_eq_on second) as [b2|]; [|done]. injection H2 as <-.
  simpl. split; [|split; [|done]].
  - eexists. split; [reflexivity|]. simpl. by rewrite insert_insert_eq.
  - intros k. rewrite !lookup_fmap. by destruct (widgets m !! k).
Qed.

Lemma setLabels_twice_witness :
  ∃ m1 m2,
    setLabels (VStr "on") (nx dial_page) = Some m1 ∧
    setLabels (VStr "off") m1 = Some m2 ∧
    props m2 !! "showLabels" = Some (VBool false) ∧
    (draws <$> widgets m2 !! "dial1") = Some 2.
Proof.
  eexists _, _. split; [reflexivity|]. split; [reflexivity|].
  destruct (setLabels_twice (VStr "on") (VStr "off") (nx dial_page) _ _ eq_refl eq_refl)
    as ((m' & Hm' & Hprops) & Hdraws & _).
  injection Hm' as <-. rewrite Hprops, Hdraws. split; reflexivity.
Defined.

(** X16. For a truthy value, [setProp] on ["throttlePeriod"] does what
    [setThrottlePeriod] does and redraws every widget besides; for a falsy
    one, 0 for instance, [setProp] does nothing while [setThrottlePeriod]
    sets the period. *)
Theorem setProp_throttlePeriod val m :
  (truthy val = true →
   setProp "throttlePeriod" val m = Some (set_widgets (fmap draw) (setThrottlePeriod val m))) ∧
  (truthy val = false →
   setProp "throttlePeriod" val m = Some m ∧
   props (setThrottlePeriod val m) !! "throttlePeriod" = Some val).
Proof.
  split.
  - intros Hval. rewrite setProp_truthy; [|done|done|].
    + unfold setThrottlePeriod. simpl. rewrite lookup_insert_eq. simpl.
      unfold set_widgets. simpl. by rewrite <- map_fmap_compose.
    + apply (bool_decide_eq_false_1 ("throttlePeriod" ∈ structural)). by vm_compute.
  - intros Hval. split; [apply setProp_falsy; by right|].
    unfold setThrottlePeriod. simpl. by rewrite lookup_insert_eq.
Qed.

Lemma setProp_throttlePeriod_witness :
  setProp "throttlePeriod" (VNum 50) (nx dial_page)
    = Some (set_widgets (fmap draw) (setThrottlePeriod (VNum 50) (nx dial_page))) ∧
  setProp "throttlePeriod" (VNum 0) (nx dial_page) = Some (nx dial_page) ∧
  props (setThrottlePeriod (VNum 0) (nx dial_page)) !! "throttlePeriod" = Some (VNum 0).
Proof.
  split.
  - apply (proj1 (setProp_throttlePeriod (VNum 50) (nx dial_page))). reflexivity.
  - apply (proj2 (setProp_throttlePeriod (VNum 0) (nx dial_page))). reflexivity.
Defined.

(** X17. Of two calls of [setThrottlePeriod] in a row only the second counts:
    the manager is the one the second call alone gives; in particular the
    call is idempotent. *)
Theorem setThrottlePeriod_last_wins first second m :
  setThrottlePeriod second (setThrottlePeriod first m) = setThrottlePeriod second m.
Proof.
  unfold setThrottlePeriod. simpl. rewrite !lookup_insert_eq. simpl.
  unfold set_widgets, set_props. simpl. rewrite insert_insert_eq. f_equal.
  rewrite <- map_fmap_compose. apply map_eq. intros k. rewrite !lookup_fmap.
  destruct (widgets m !! k) as [w|]; [|done]. simpl.
  unfold set_wprops. simpl. by rewrite insert_insert_eq.
Qed.

(** ** Animation callbacks: removal and ticks that do not end *)

Lemma removeAni_cases fn m :
  (∃ l1 l2, aniItems m = l1 ++ fn :: l2 ∧ (fn ∉ l1) ∧ aniItems (removeAni fn m) = l1) ∨
  ((fn ∉ aniItems m) ∧
   aniItems (removeAni fn m) = take (length (aniItems m) - 1) (aniItems m)).
Proof.
  destruct (decide (fn ∈ aniItems m)) as [Hin | Hnot].
  - left. apply list_elem_of_split_l in Hin as (l1 & l2 & Hl & Hnot).
    exists l1, l2. split; [done|]. split; [done|]. by eapply removeAni_present.
  - right. split; [done|]. by apply removeAni_absent.
Qed.

Lemma remove_first_app fn l1 l2 :
  fn ∉ l1 → remove_first fn (l1 ++ fn :: l2) = l1 ++ l2.
Proof.
  induction l1 as [|x l1 IH]; intros Hnot; simpl.
  - by rewrite Nat.eqb_refl.
  - apply not_elem_of_cons in Hnot as [Hne Hnot].
    destruct (Nat.eqb_spec x fn) as [->|_]; [done|]. by rewrite IH.
Qed.

Lemma remove_first_absent fn l : fn ∉ l → remove_first fn l = l.
Proof.
  induction l as [|x l IH]; intros Hnot; simpl; [done|].
  apply not_elem_of_cons in Hnot as [Hne Hnot].
  destruct (Nat.eqb_spec x fn) as [->|_]; [done|]. by rewrite IH.
Qed.

Lemma removeAni_prefix_without fn m :
  (fn ∉ aniItems (removeAni fn m)) ∧
  (aniItems (removeAni fn m) `prefix_of` aniItems m) ∧
  (aniItems m ≠ [] → length (aniItems (removeAni fn m)) < length (aniItems m)).
Proof.
  destruct (removeAni_cases fn m) as [(l1 & l2 & Hl & Hnot & ->) | (Hnot & ->)].
  - rewrite Hl. repeat split; [done | by apply prefix_app_r |].
    intros _. rewrite length_app. simpl. lia.
  - repeat split.
    + intros Hin. apply Hnot. apply elem_of_take in Hin as (i & Hi & _).
      by eapply list_elem_of_lookup_2.
    + apply prefix_take.
    + intros Hne. rewrite length_take. destruct (aniItems m); [done|]. simpl. lia.
Qed.

(** X18. After [removeAni] the callback is not in the list, whatever the list
    was; what is left is an initial part of the old list, and a list that was
    not empty has become shorter, also when the callback was not in it. *)
Theorem removeAni_postcondition fn m :
  (fn ∉ aniItems (removeAni fn m)) ∧
  (aniItems (removeAni fn m) `prefix_of` aniItems m) ∧
  (aniItems m ≠ [] → length (aniItems (removeAni fn m)) < length (aniItems m)).
Proof. apply removeAni_prefix_without. Qed.

(** X19. [removeAni] removes the first occurrence of the callback and nothing
    else exactly when the list is empty or the callback occurs once, at the
    end of the list. *)
Theorem removeAni_removes_first_iff fn m :
  aniItems (removeAni fn m) = remove_first fn (aniItems m) ↔
  aniItems m = [] ∨ ∃ l1, aniItems m = l1 ++ [fn] ∧ fn ∉ l1.
Proof.
  destruct (removeAni_cases fn m) as [(l1 & l2 & Hl & Hnot & ->) | (Hnot & ->)].
  - rewrite Hl, remove_first_app by done. split.
    + intros Heq. right. exists l1. split; [|done].
      assert (l2 = []) as ->; [|done].
      apply (f_equal length) in Heq. rewrite length_app in Heq.
      destruct l2; [done | simpl in Heq; lia].
    + intros [Hnil | (l1' & Heq & Hnot')].
      * by destruct l1.
      * assert (l2 = []) as ->; [|by rewrite app_nil_r].
        destruct l2 as [|y l2] using rev_ind; [done|].
        rewrite app_comm_cons, app_assoc in Heq.
        apply app_inj_tail in Heq as [<- ->].
        exfalso. apply Hnot'. set_solver.
  - rewrite remove_first_absent by done. split.
    + intros Heq. left. apply (f_equal length) in Heq. rewrite length_take in Heq.
      destruct (aniItems m); [done | simpl in Heq; lia].
    + intros [-> | (l1 & Heq & _)]; [done|].
      exfalso. apply Hnot. rewrite Heq. set_solver.
Qed.

Section PulseGrowth.

Variable call : nat → page → page * completion unit.

(** Every callback returns and leaves the list of callbacks longer than it
    found it. *)
Hypothesis call_registers :
  ∀ fn q, (call fn q).2 = Normal () ∧
          length (aniItems (nx q)) < length (aniItems (nx (call fn q).1)).

Lemma pulse_from_never_ends fuel : ∀ i p,
  i < length (aniItems (nx p)) → pulse_from call fuel i p = None.
Proof.
  induction fuel as [|fuel IH]; intros i p Hi; simpl; [done|].
  destruct (lookup_lt_is_Some_2 _ _ Hi) as [fn ->].
  destruct (call_registers fn p) as [Hret Hlen].
  destruct (call fn p) as [p1 c]. simpl in *. subst c.
  rewrite IH by lia. done.
Qed.

End PulseGrowth.

(** X20. The loop of [pulse] reads the length of the list at every turn: with
    callbacks that each register a further callback, a tick on a list that is
    not empty never comes to an end, whatever the number of turns it is
    given. *)
Theorem pulse_never_ends call fuel p :
  (∀ fn q, (call fn q).2 = Normal () ∧
           length (aniItems (nx q)) < length (aniItems (nx (call fn q).1))) →
  aniItems (nx p) ≠ [] →
  pulse call fuel p = None.
Proof.
  intros Hcall Hne. unfold pulse. apply pulse_from_never_ends; [done|].
  destruct (aniItems (nx p)); [done | simpl; lia].
Qed.

Lemma registering_call_registers fn q :
  (registering_call fn q).2 = Normal () ∧
  length (aniItems (nx q)) < length (aniItems (nx (registering_call fn q).1)).
Proof. split; [done|]. simpl. rewrite length_app. simpl. lia. Qed.

Lemma pulse_never_ends_witness :
  pulse registering_call 1000 (set_nx (λ _, three_callbacks) new_page) = None.
Proof.
  apply (pulse_never_ends registering_call 1000 (set_nx (λ _, three_callbacks) new_page)).
  - exact registering_call_registers.
  - discriminate.
Defined.

(** ** The pulse timer *)

Lemma to_handle_of_nat h :
  (Z.of_nat h < 2 ^ 31)%Z → to_handle (VNum (Z.of_nat h)) = Some h.
Proof.
  intros Hh. unfold to_handle.
  destruct (Z.leb_spec 0 (Z.of_nat h)); [|lia].
  destruct (Z.ltb_spec (Z.of_nat h) (2 ^ 31)); [|lia].
  simpl. by rewrite Nat2Z.id.
Qed.

#[local] Arguments to_handle : simpl never.

(** X21. [startPulse] starts one timer that runs ["nx.pulse()"] every 30 time
    units and keeps its handle in [pulseInt]; [stopPulse] right after it
    leaves the timers of the page as they were before.  [stopPulse] on a
    manager that never started a pulse changes nothing.  (Handles are below
    2^31, the handle of a new timer is not in use, and no timer has the
    handle 0.) *)
Theorem startPulse_stopPulse m tm :
  (active (startPulse (m, tm)).2 !! next_handle tm = Some ("nx.pulse()", 30) ∧
   props (startPulse (m, tm)).1 !! "pulseInt" = Some (VNum (Z.of_nat (next_handle tm)))) ∧
  ((Z.of_nat (next_handle tm) < 2 ^ 31)%Z → active tm !! next_handle tm = None →
   ∃ s, stopPulse (startPulse (m, tm)) = Some s ∧ active s.2 = active tm) ∧
  (props m !! "pulseInt" = None → active tm !! 0 = None →
   stopPulse (m, tm) = Some (m, tm)).
Proof.
  split; [|split].
  - simpl. by rewrite !lookup_insert_eq.
  - intros Hbound Hfresh. unfold stopPulse, startPulse, clearInterval. simpl.
    rewrite lookup_insert_eq. simpl. rewrite to_handle_of_nat by done.
    eexists. split; [reflexivity|]. simpl.
    by rewrite delete_insert_eq, delete_id.
  - intros Hnone Hzero. unfold stopPulse, clearInterval. simpl. rewrite Hnone. simpl.
    rewrite delete_id by done. by destruct tm.
Qed.

Lemma startPulse_stopPulse_witness :
  (∃ s, stopPulse (startPulse (new_manager, mkTimers 1 ∅)) = Some s ∧
        active s.2 = active (mkTimers 1 ∅)) ∧
  stopPulse (new_manager, mkTimers 1 ∅) = Some (new_manager, mkTimers 1 ∅).
Proof.
  destruct (startPulse_stopPulse new_manager (mkTimers 1 ∅)) as (_ & Hround & Hnone).
  split.
  - apply Hround; [by vm_compute | reflexivity].
  - apply Hnone; reflexivity.
Defined.

(** X22. [startPulse] called twice starts two timers and keeps the handle of
    the second only: [stopPulse] stops the second, the first goes on calling
    ["nx.pulse()"] every 30 time units, and a further [stopPulse] does not
    reach it either. *)
Theorem startPulse_twice_leaks_timer m tm :
  (Z.of_nat (S (next_handle tm)) < 2 ^ 31)%Z →
  ∃ s, stopPulse (startPulse (startPulse (m, tm))) = Some s ∧
       active s.2 !! next_handle tm = Some ("nx.pulse()", 30) ∧
       active s.2 !! S (next_handle tm) = None ∧
       ∃ s', stopPulse s = Some s' ∧
             active s'.2 !! next_handle tm = Some ("nx.pulse()", 30).
Proof.
  intros Hbound. unfold stopPulse, startPulse, clearInterval. simpl.
  rewrite lookup_insert_eq. simpl. rewrite to_handle_of_nat by done.
  eexists. split; [reflexivity|]. simpl.
  rewrite delete_insert_eq, lookup_delete_ne, lookup_insert_eq, lookup_delete_eq by lia.
  split; [done|]. split; [done|].
  rewrite lookup_insert_eq. simpl. rewrite to_handle_of_nat by done.
  eexists. split; [reflexivity|]. simpl.
  by rewrite !lookup_delete_ne, lookup_insert_eq by lia.
Qed.

Lemma startPulse_twice_leaks_timer_witness :
  ∃ s, stopPulse (startPulse (startPulse (new_manager, mkTimers 1 ∅))) = Some s ∧
       active s.2 !! 1 = Some ("nx.pulse()", 30) ∧
       active s.2 !! 2 = None ∧
       ∃ s', stopPulse s = Some s' ∧ active s'.2 !! 1 = Some ("nx.pulse()", 30).
Proof.
  apply (startPulse_twice_leaks_timer new_manager (mkTimers 1 ∅)). by vm_compute.
Defined.

(** ** setViewport *)

Lemma set_viewport_meta_other scale mt :
  meta_name mt ≠ "viewport" → set_viewport_meta scale mt = Some mt.
Proof.
  intros Hne. unfold set_viewport_meta.
  by destruct (String.eqb_spec (meta_name mt) "viewport").
Qed.

Lemma set_viewport_meta_name scale mt mt' :
  set_viewport_meta scale mt = Some mt' → meta_name mt' = meta_name mt.
Proof.
  unfold set_viewport_meta. destruct (String.eqb (meta_name mt) "viewport").
  - destruct (to_String scale); simpl; [|done]. by intros [= <-].
  - by intros [= <-].
Qed.

Lemma set_viewport_meta_again first second mt mt' :
  set_viewport_meta first mt = Some mt' →
  set_viewport_meta second mt' = set_viewport_meta second mt.
Proof.
  intros Hfirst. pose proof (set_viewport_meta_name _ _ _ Hfirst) as Hname.
  unfold set_viewport_meta in *. rewrite Hname.
  destruct (String.eqb (meta_name mt) "viewport"); [|by injection Hfirst as <-].
  by destruct (to_String second).
Qed.

(** X23. [setViewport] writes to the meta elements named ["viewport"] and to
    no other: in a document without such an element the call changes nothing
    and adds no element, whatever the scale. *)
Theorem setViewport_without_viewport_meta scale m metas :
  props m !! "metas" = None →
  Forall (λ mt, meta_name mt ≠ "viewport") metas →
  setViewport scale m metas = Some metas.
Proof.
  intros Hm Hall. unfold setViewport. rewrite Hm.
  induction Hall as [|mt metas Hmt Hall IH]; [done|].
  simpl. rewrite set_viewport_meta_other by done. simpl. by rewrite IH.
Qed.

Lemma setViewport_without_viewport_meta_witness :
  setViewport (VRef 3) new_manager [mkMeta "charset" "utf-8"; mkMeta "author" "nx"]
    = Some [mkMeta "charset" "utf-8"; mkMeta "author" "nx"].
Proof.
  apply (setViewport_without_viewport_meta (VRef 3) new_manager
           [mkMeta "charset" "utf-8"; mkMeta "author" "nx"]).
  - reflexivity.
  - repeat constructor; discriminate.
Defined.

(** X24. [setViewport] keeps the number, the order and the names of the meta
    elements and rewrites the content of those named ["viewport"] as a whole:
    after a second call the elements are what the second call alone gives. *)
Theorem setViewport_last_wins first second m metas metas1 :
  setViewport first m metas = Some metas1 →
  meta_name <$> metas1 = meta_name <$> metas ∧
  setViewport second m metas1 = setViewport second m metas.
Proof.
  unfold setViewport. destruct (props m !! "metas"); [done|].
  intros Hfirst%mapM_Some_1.
  induction Hfirst as [|mt mt' metas metas1 Hmt Hrest [IHnames IHagain]]; [done|].
  split.
  - rewrite !fmap_cons. by rewrite (set_viewport_meta_name _ _ _ Hmt), IHnames.
  - change (mapM (set_viewport_meta second) (mt' :: metas1))
      with (y ← set_viewport_meta second mt';
            k ← mapM (set_viewport_meta second) metas1; mret (y :: k)).
    change (mapM (set_viewport_meta second) (mt :: metas))
      with (y ← set_viewport_meta second mt;
            k ← mapM (set_viewport_meta second) metas; mret (y :: k)).
    by rewrite (set_viewport_meta_again _ _ _ _ Hmt), IHagain.
Qed.

Lemma setViewport_last_wins_witness :
  meta_name <$> [mkMeta "viewport" "minimum-scale=2, maximum-scale=2"; mkMeta "author" "nx"]
    = meta_name <$> [mkMeta "viewport" "width=device-width"; mkMeta "author" "nx"] ∧
  setViewport (VNum 1) new_manager
      [mkMeta "viewport" "minimum-scale=2, maximum-scale=2"; mkMeta "author" "nx"]
    = setViewport (VNum 1) new_manager
        [mkMeta "viewport" "width=device-width"; mkMeta "author" "nx"].
Proof.
  apply (setViewport_last_wins (VNum 2) (VNum 1) new_manager
           [mkMeta "viewport" "width=device-width"; mkMeta "author" "nx"]).
  by vm_compute.
Defined.

(** ** blockMove *)

(** X25. [blockMove] returns normally exactly when the target of the event is
    not a canvas.  On a canvas it prevents the default action of a cancelable
    event and then fails with a TypeError, the event having no method
    [stopPropogation]; the propagation of the event is never stopped. *)
Theorem blockMove_never_stops_propagation e :
  ((blockMove e).2 = Normal () ↔ target_tagName e ≠ "CANVAS") ∧
  (target_tagName e = "CANVAS" →
   (blockMove e).2 = Throw TypeError ∧
   defaultPrevented (blockMove e).1 = cancelable e || defaultPrevented e) ∧
  (target_tagName e ≠ "CANVAS" → (blockMove e).1 = e) ∧
  propagationStopped (blockMove e).1 = propagationStopped e.
Proof.
  unfold blockMove.
  destruct (String.eqb_spec (target_tagName e) "CANVAS") as [Heq | Hne]; simpl.
  - repeat split; done.
  - repeat split; done.
Qed.

Lemma blockMove_never_stops_propagation_witness :
  (blockMove (mkEvent "CANVAS" true false false)).2 = Throw TypeError ∧
  defaultPrevented (blockMove (mkEvent "CANVAS" true false false)).1 = true || false.
Proof.
  apply (proj1 (proj2 (blockMove_never_stops_propagation (mkEvent "CANVAS" true false false)))).
  reflexivity.
Defined.

(** ** A removed callback and the following ticks *)

Lemma invoke_in_order_subset call fns : ∀ p fn,
  fn ∈ (invoke_in_order call fns p).1.1 → fn ∈ fns.
Proof.
  induction fns as [|fn0 fns IH]; intros p fn; simpl; [done|].
  destruct (call fn0 p) as [p1 [[]|e]]; simpl.
  - specialize (IH p1 fn).
    destruct (invoke_in_order call fns p1) as [[tr p2] c]. simpl in *.
    rewrite !elem_of_cons. intros [-> | Hin]; [by left | right; by apply IH].
  - rewrite list_elem_of_singleton. intros ->. by left.
Qed.

(** X26. After [removeAni] a tick does not invoke the removed callback: with
    callbacks that leave the list of callbacks as it is, none of the
    callbacks that the tick invokes is the one that was removed. *)
Theorem pulse_after_removeAni call fuel fn p :
  (∀ fn' q, aniItems (nx (call fn' q).1) = aniItems (nx q)) →
  length (aniItems (nx p)) < fuel →
  ∃ invoked p1 c,
    pulse call fuel (set_nx (removeAni fn) p) = Some (invoked, p1, c) ∧ fn ∉ invoked.
Proof.
  intros Hkeep Hfuel.
  pose proof (removeAni_prefix_without fn (nx p)) as (Hgone & Hprefix & _).
  assert (length (aniItems (nx (set_nx (removeAni fn) p))) - 0 < fuel) as Hfuel'.
  { change (nx (set_nx (removeAni fn) p)) with (removeAni fn (nx p)).
    apply prefix_length in Hprefix. lia. }
  unfold pulse. rewrite (pulse_from_invoke_in_order call Hkeep fuel 0 _ Hfuel'), drop_0.
  pose proof (invoke_in_order_subset call (aniItems (nx (set_nx (removeAni fn) p)))
                (set_nx (removeAni fn) p) fn) as Hsub.
  destruct (invoke_in_order call _ _) as [[invoked p1] c].
  exists invoked, p1, c. split; [done|]. intros Hin. by apply Hgone, Hsub.
Qed.

Lemma pulse_after_removeAni_witness :
  ∃ invoked p1 c,
    pulse sample_call 4 (set_nx (removeAni 2) (set_nx (λ _, three_callbacks) new_page))
      = Some (invoked, p1, c) ∧ 2 ∉ invoked.
Proof.
  apply (pulse_after_removeAni sample_call 4 2 (set_nx (λ _, three_callbacks) new_page)).
  - exact sample_call_keeps_aniItems.
  - simpl. lia.
Defined.

(** ** Instances of the statements above *)

Lemma ledger_only_grows_witness :
  count_type "toggle"
    (elemTypeArr (nx (transform sample_catalog (mkCanvas "" (Some "dial")) None dial_page).1.1))
    = count_type "toggle" (elemTypeArr (nx dial_page)).
Proof.
  apply (proj2 (proj1 (ledger_only_grows sample_catalog dial_page)
                  (mkCanvas "" (Some "dial")) None)).
  discriminate.
Defined.

Lemma setLabels_only_on_witness :
  props (set_widgets (fmap draw) (set_props (insert "showLabels" (VBool false)) (nx dial_page)))
    !! "showLabels" = Some (VBool false).
Proof.
  apply (proj1 (proj2 (setLabels_only_on (nx dial_page))) (VNum 1)).
  - reflexivity.
  - discriminate.
Defined.

Lemma removeAni_postcondition_witness :
  length (aniItems (removeAni 9 three_callbacks)) < length (aniItems three_callbacks).
Proof.
  apply (proj2 (proj2 (removeAni_postcondition 9 three_callbacks))). discriminate.
Defined.

Lemma registry_never_shrinks_witness :
  ∃ m', setProp "zoom" (VNum 2) (nx dial_page) = Some m' ∧
        dom (widgets m') = dom (widgets (nx dial_page)).
Proof.
  apply (proj1 (proj2 (proj2 (proj2 (registry_never_shrinks sample_catalog dial_page))))).
  apply (bool_decide_eq_false_1 ("zoom" ∈ structural)). by vm_compute.
Defined.

(** * setProp on every name *)

(** On the names that are plain data, [setProp_full] is [setProp]. *)
Lemma setProp_full_plain for_in prop val m :
  prop ∉ structural →
  ∃ m', setProp prop val m = Some m' ∧
        setProp_full for_in prop val m = Some (mkAfterSetProp m' ∅ ∅, Normal ()).
Proof.
  intros Hplain. unfold setProp, setProp_full.
  rewrite (bool_decide_eq_false_2 _ Hplain).
  destruct (truthy_str prop && truthy val); [|by eexists].
  assert (prop ≠ "__proto__" ∧ prop ≠ "widgets" ∧ prop ≠ "draw" ∧
          (prop ∉ manager_members) ∧ (prop ∉ widget_members)) as (H1 & H2 & H3 & H4 & H5).
  { unfold structural, manager_members, widget_members in *.
    rewrite !not_elem_of_cons in *.
    destruct Hplain as (? & ? & ? & ? & ? & ? & ? & ?). repeat split; done. }
  destruct (String.eqb_spec prop "__proto__"); [done|].
  destruct (String.eqb_spec prop "widgets"); [done|].
  destruct (String.eqb_spec prop "draw"); [done|].
  unfold assign_manager, assign_widget_draw.
  rewrite !(bool_decide_eq_false_2 _ H4), !(bool_decide_eq_false_2 _ H5). simpl.
  by eexists.
Qed.

Lemma setProp_full_falsy for_in prop val m :
  prop = "" ∨ truthy val = false →
  setProp_full for_in prop val m = Some (mkAfterSetProp m ∅ ∅, Normal ()).
Proof.
  unfold setProp_full. intros [-> | ->]; [done|]. by rewrite andb_false_r.
Qed.

(** C6, as the spec has it, fails in more than one way.  A falsy value is
    not broadcast: switching [globalWidgets] off changes nothing and redraws
    nothing.  The name ["widgets"] replaces the registry: the widget
    registered before gets no property and is not redrawn.  The name ["draw"]
    replaces the method the loop is about to call: the call ends in a
    TypeError and no widget is redrawn.  The name ["__proto__"] is not set at
    all. *)
Lemma setProp_not_broadcast :
  (props (nx dial_page) !! "globalWidgets" = Some (VBool true) ∧
   setProp "globalWidgets" (VBool false) (nx dial_page) = Some (nx dial_page) ∧
   setProp_full sample_for_in "globalWidgets" (VBool false) (nx dial_page)
     = Some (mkAfterSetProp (nx dial_page) ∅ ∅, Normal ())) ∧
  (∃ r, setProp_full sample_for_in "widgets" (VNum 1) (nx dial_page) = Some (r, Normal ()) ∧
        manager_property r "widgets" = Some (VNum 1) ∧
        widget_property r "dial1" "widgets" = None ∧
        (draws <$> widgets (after r) !! "dial1") = Some 0 ∧
        (draws <$> widgets (nx dial_page) !! "dial1") = Some 0) ∧
  (∃ r, setProp_full sample_for_in "draw" (VNum 1) (nx dial_page) = Some (r, Throw TypeError) ∧
        (draws <$> widgets (after r) !! "dial1") = Some 0) ∧
  (∃ r, setProp_full sample_for_in "__proto__" (VNum 1) (nx dial_page) = Some (r, Normal ()) ∧
        manager_property r "__proto__" = None ∧
        widget_property r "dial1" "__proto__" = None).
Proof.
  split; [by vm_compute|]. split; [|split].
  - eexists. split; [reflexivity|]. by vm_compute.
  - eexists. split; [by vm_compute|]. by vm_compute.
  - eexists. split; [reflexivity|]. by vm_compute.
Qed.

(** C6 (amended). For a non-empty name other than ["widgets"], ["draw"] and
    ["__proto__"] and a truthy value, [setProp] returns normally, the manager
    and every registered widget hold the value under the name, and every
    registered widget has been redrawn once; the name is not checked against
    the known properties, and nothing else changes.  For an empty name or a
    falsy value the call does nothing. *)
Theorem setProp_full_broadcast for_in prop val m :
  (prop ≠ "" → truthy val = true → prop ∉ ["widgets"; "draw"; "__proto__"] →
   ∃ r, setProp_full for_in prop val m = Some (r, Normal ()) ∧
     manager_property r prop = Some val ∧
     (∀ k w, widgets m !! k = Some w →
        widget_property r k prop = Some val ∧
        ∃ w', widgets (after r) !! k = Some w' ∧
              draws w' = S (draws w) ∧ inits w' = inits w ∧
              canvasID w' = canvasID w ∧ wcolors w' = wcolors w ∧
              ∀ q, q ≠ prop → wprops w' !! q = wprops w !! q) ∧
     dom (widgets (after r)) = dom (widgets m) ∧
     elemTypeArr (after r) = elemTypeArr m ∧
     aniItems (after r) = aniItems m ∧
     colors (after r) = colors m ∧
     (∀ q, q ≠ prop → props (after r) !! q = props m !! q) ∧
     (∀ q, q ≠ prop → manager_shadow r !! q = None)) ∧
  (prop = "" ∨ truthy val = false →
   setProp_full for_in prop val m = Some (mkAfterSetProp m ∅ ∅, Normal ())).
Proof.
  split; [|apply setProp_full_falsy].
  intros Hprop%truthy_str_true Hval Hname.
  assert (prop ≠ "widgets" ∧ prop ≠ "draw" ∧ prop ≠ "__proto__") as (H1 & H2 & H3).
  { rewrite !not_elem_of_cons in Hname. destruct Hname as (? & ? & ? & ?). done. }
  unfold setProp_full. rewrite Hprop, Hval. simpl.
  destruct (String.eqb_spec prop "__proto__"); [done|].
  destruct (String.eqb_spec prop "widgets"); [done|].
  destruct (String.eqb_spec prop "draw"); [done|].
  eexists. split; [reflexivity|].
  unfold manager_property, widget_property, assign_manager, assign_widget_draw.
  destruct (decide (prop ∈ manager_members)) as [Hm | Hm];
    [rewrite !(bool_decide_eq_true_2 _ Hm) | rewrite !(bool_decide_eq_false_2 _ Hm)];
    (destruct (decide (prop ∈ widget_members)) as [Hw | Hw];
     [rewrite !(bool_decide_eq_true_2 _ Hw) | rewrite !(bool_decide_eq_false_2 _ Hw)]);
    cbn [after manager_shadow widget_shadow fst snd].
  all: split; [first [apply lookup_singleton_eq | cbn; apply lookup_insert_eq]|].
  all: split; [|cbn; repeat split; try apply dom_fmap_L; try done;
                intros q Hq; first [by apply lookup_insert_ne | by apply lookup_singleton_ne]].
  all: intros k w Hk; cbn; rewrite ?lookup_fmap, Hk; cbn.
  all: split; [first [apply lookup_singleton_eq | apply lookup_insert_eq]|].
  all: eexists; split; [reflexivity|]; cbn; repeat split; try done.
  all: intros q Hq; by apply lookup_insert_ne.
Qed.

Lemma setProp_full_broadcast_witness :
  (∃ r, setProp_full sample_for_in "canvasID" (VStr "knob") (nx dial_page)
          = Some (r, Normal ()) ∧
        manager_property r "canvasID" = Some (VStr "knob") ∧
        widget_property r "dial1" "canvasID" = Some (VStr "knob") ∧
        (draws <$> widgets (after r) !! "dial1") = Some 1) ∧
  setProp_full sample_for_in "zoom" (VNum 0) (nx dial_page)
    = Some (mkAfterSetProp (nx dial_page) ∅ ∅, Normal ()).
Proof.
  split.
  - destruct (proj1 (setProp_full_broadcast sample_for_in "canvasID" (VStr "knob")
                       (nx dial_page)))
      as (r & Hcall & Hmanager & Hwidgets & _).
    + discriminate.
    + reflexivity.
    + rewrite !not_elem_of_cons. repeat split; try discriminate. apply not_elem_of_nil.
    + exists r. split; [exact Hcall|]. split; [exact Hmanager|].
      destruct (Hwidgets "dial1" (init (mkWidget "dial1" default_colors
                  (<["throttlePeriod" := VNum 20]> (<["showLabels" := VBool false]> ∅)) 0 0)))
        as (Hheld & w' & Hw' & Hdraws & _).
      * by vm_compute.
      * split; [exact Hheld|]. rewrite Hw'. simpl. by rewrite Hdraws.
  - apply (proj2 (setProp_full_broadcast sample_for_in "zoom" (VNum 0) (nx dial_page))).
    right. reflexivity.
Defined.

(** * The tick and callbacks that change the list *)

